(** * app03: stat extraction, leaderboard parsing and the scrape cache

    A shallow embedding of [src/app.py] (a Flask service that reads PUBG match
    documents and scrapes a Twire leaderboard table) together with the
    properties its specification states about it.

    Conventions of the embedding:
    - a Python [str] is a Rocq [string]; the characters are read as ASCII code
      points, so [str.lower], [str.strip] and the regular-expression class
      [\d] act on the ASCII letters, blanks and digits only;
    - a Python [float] is an IEEE-754 binary64 number, [spec_float] with
      precision 53 and maximal exponent 1024, with the operations of
      [SpecFloat];
    - a Python [int] is a [Z];
    - a dynamically typed value (a decoded JSON document, a function argument
      of unknown type) is a [pyval];
    - code that can raise returns a [result]: [Ok v] or [Raise e]; a
      [try ... except Exception] block is a match on that result;
    - the file system under [.twire_cache] is a finite map from path to file.

    Outside of the embedding: the HTTP layer of Flask, the three calls to the
    PUBG API and the rendering of the page by a browser, which are
    collaborators of the functions below; the HTML parser, whose tree is the
    input of the leaderboard parser; the JSON codec, of which only the round
    trip is assumed; and [_distance_str], which no property depends on. *)

From Stdlib Require Import ZArith List String Ascii Bool Lia.
From Stdlib Require Import DecimalString Floats.SpecFloat.
From stdpp Require Import gmap strings list.

Local Open Scope string_scope.
Local Open Scope Z_scope.

(** ** Python strings *)

Module PyStr.

Definition chr (n : nat) : ascii := ascii_of_nat n.
Definition ord (c : ascii) : nat := nat_of_ascii c.

Definition is_digit (c : ascii) : bool :=
  (48 <=? ord c)%nat && (ord c <=? 57)%nat.

Definition digit_val (c : ascii) : Z := Z.of_nat (ord c) - 48.

(** [str.isspace] on ASCII: TAB, LF, VT, FF, CR, FS, GS, RS, US and SPACE. *)
Definition is_space (c : ascii) : bool :=
  ((9 <=? ord c)%nat && (ord c <=? 13)%nat)
  || ((28 <=? ord c)%nat && (ord c <=? 32)%nat).

Definition is_upper (c : ascii) : bool :=
  (65 <=? ord c)%nat && (ord c <=? 90)%nat.

Definition lower_char (c : ascii) : ascii :=
  if is_upper c then chr (ord c + 32) else c.

(** [s.lower()] *)
Fixpoint lower (s : string) : string :=
  match s with
  | EmptyString => EmptyString
  | String c r => String (lower_char c) (lower r)
  end.

Fixpoint lstrip (s : string) : string :=
  match s with
  | EmptyString => EmptyString
  | String c r => if is_space c then lstrip r else s
  end.

Fixpoint rstrip (s : string) : string :=
  match s with
  | EmptyString => EmptyString
  | String c r =>
      match rstrip r with
      | EmptyString => if is_space c then EmptyString else String c EmptyString
      | r' => String c r'
      end
  end.

(** [s.strip()] *)
Definition strip (s : string) : string := rstrip (lstrip s).

(** [s.startswith(p)] *)
Fixpoint starts_with (p s : string) : bool :=
  match p, s with
  | EmptyString, _ => true
  | String a p', String b s' => Ascii.eqb a b && starts_with p' s'
  | String _ _, EmptyString => false
  end.

(** [w in h]: [w] occurs in [h] as a contiguous substring. *)
Fixpoint contains (w h : string) : bool :=
  starts_with w h ||
  match h with
  | EmptyString => false
  | String _ h' => contains w h'
  end.

(** [c in s] for a single character. *)
Fixpoint has_char (c : ascii) (s : string) : bool :=
  match s with
  | EmptyString => false
  | String a r => Ascii.eqb a c || has_char c r
  end.

(** [s.replace(c, d)] for single characters [c] and [d]. *)
Fixpoint replace_char (c d : ascii) (s : string) : string :=
  match s with
  | EmptyString => EmptyString
  | String a r => String (if Ascii.eqb a c then d else a) (replace_char c d r)
  end.

(** [s.replace(c, "")] for a single character [c]. *)
Fixpoint remove_char (c : ascii) (s : string) : string :=
  match s with
  | EmptyString => EmptyString
  | String a r => if Ascii.eqb a c then remove_char c r else String a (remove_char c r)
  end.

(** [sep.join(l)] *)
Fixpoint join (sep : string) (l : list string) : string :=
  match l with
  | [] => EmptyString
  | [x] => x
  | x :: r => x +:+ sep +:+ join sep r
  end.

(** The longest prefix of digits, and what follows it. *)
Fixpoint span_digits (s : string) : string * string :=
  match s with
  | String c r =>
      if is_digit c then let '(d, t) := span_digits r in (String c d, t)
      else (EmptyString, s)
  | EmptyString => (EmptyString, EmptyString)
  end.

(** The value of a run of decimal digits, most significant first. *)
Fixpoint digits_val_acc (acc : Z) (s : string) : Z :=
  match s with
  | EmptyString => acc
  | String c r => digits_val_acc (10 * acc + digit_val c) r
  end.

Definition digits_val (s : string) : Z := digits_val_acc 0 s.

(** [str(z)] for an integer: decimal digits, with a leading minus sign for
    a negative number. *)
Definition str_of_Z (z : Z) : string := NilZero.string_of_int (Z.to_int z).

(** The format specification [02d]: sign first, then zeros up to a total
    width of two characters. *)
Definition fmt_02d (z : Z) : string :=
  let body := str_of_Z z in
  if (String.length body <? 2)%nat then String "0" body else body.

End PyStr.

(** ** Exceptions *)

(** The exception classes the embedded code can meet. All of them derive
    from [Exception]; [HTTPError] is [requests.HTTPError]. *)
Inductive exn : Type :=
  | TypeError | ValueError | OverflowError | AttributeError | HTTPError | OtherError.

Inductive result (A : Type) : Type :=
  | Ok (v : A)
  | Raise (e : exn).
Arguments Ok {A} v.
Arguments Raise {A} e.

(** Sequencing: the first exception raised ends the computation. The
    notation [x ← r; k] is the one of stdpp's monads. *)
#[export] Instance result_bind : MBind result :=
  fun A B (k : A -> result B) (r : result A) =>
    match r with
    | Ok v => k v
    | Raise e => Raise e
    end.

#[export] Instance result_ret : MRet result := fun A v => Ok v.

(** [try: r  except Exception: return d] *)
Definition try_except {A : Type} (r : result A) (d : A) : A :=
  match r with
  | Ok v => v
  | Raise _ => d
  end.

(** ** Python floats: IEEE-754 binary64 *)

Module F64.

Definition prec : Z := 53.
Definition emax : Z := 1024.

Abbreviation float := spec_float.

Definition zero : float := S754_zero false.

Definition is_inf (x : float) : bool :=
  match x with S754_infinity _ => true | _ => false end.

Definition is_finite (x : float) : bool :=
  match x with S754_zero _ | S754_finite _ _ _ => true | _ => false end.

(** [x - y], [abs(x)], [x <= y] *)
Definition sub (x y : float) : float := SFsub prec emax x y.
Definition abs (x : float) : float := SFabs x.
Definition leb (x y : float) : bool := SFleb x y.

(** The integer [z] rounded to the nearest binary64 number, ties to even. *)
Definition round_Z (z : Z) : float := binary_normalize prec emax z 0 false.

(** [float(z)] for a Python [int]: an integer too large for a binary64
    number raises [OverflowError]. *)
Definition of_int (z : Z) : result float :=
  let f := round_Z z in
  if is_inf f then Raise OverflowError else Ok f.

(** The decimal number [(-1)^neg * m * 10^e], [m >= 0], rounded once to the
    nearest binary64 number: what [float] computes from a decimal literal. *)
Definition of_decimal (neg : bool) (m : Z) (e : Z) : float :=
  match m with
  | Z0 => S754_zero neg
  | Zpos p =>
      if 0 <=? e then binary_round prec emax neg (p * Z.to_pos (10 ^ e)) 0
      else SFdiv prec emax (S754_finite neg p 0)
                           (S754_finite false (Z.to_pos (10 ^ (- e))) 0)
  | Zneg _ => S754_nan
  end.

(** [int(x)]: truncation toward zero; [nan] and the infinities raise. *)
Definition to_int (x : float) : result Z :=
  match x with
  | S754_zero _ => Ok 0
  | S754_finite s m e => Ok (cond_Zopp s (Z.shiftl (Zpos m) e))
  | S754_infinity _ => Raise OverflowError
  | S754_nan => Raise ValueError
  end.

(** The literals of the source. *)
Definition lit_0_4 : float := of_decimal false 4 (-1).
Definition lit_0_5 : float := of_decimal false 5 (-1).

End F64.

(** ** Dynamically typed values *)

Local Set Warnings "-register-all".

(** What [json.loads] returns and what the functions of the source take as
    arguments: [None], booleans, integers, floats, strings, lists and
    dictionaries with string keys. A dictionary lists its items in insertion
    order; a key is looked up at its first item. *)
Inductive pyval : Type :=
  | PNone
  | PBool (b : bool)
  | PInt (z : Z)
  | PFloat (f : F64.float)
  | PStr (s : string)
  | PList (l : list pyval)
  | PDict (d : list (string * pyval)).

Module Py.

(** Truth value testing, as in [if v], [not v] and [v or d]. *)
Definition truthy (v : pyval) : bool :=
  match v with
  | PNone => false
  | PBool b => b
  | PInt z => negb (z =? 0)
  | PFloat f => match f with S754_zero _ => false | _ => true end
  | PStr s => negb (String.eqb s "")
  | PList l => match l with [] => false | _ => true end
  | PDict d => match d with [] => false | _ => true end
  end.

(** [v or d] *)
Definition or_else (v d : pyval) : pyval := if truthy v then v else d.

(** The items of a dictionary: the value at the first item with key [k]. *)
Fixpoint assoc (k : string) (d : list (string * pyval)) : option pyval :=
  match d with
  | [] => None
  | (k', v) :: r => if String.eqb k' k then Some v else assoc k r
  end.

(** [d.get(k, default)] on a dictionary. *)
Definition dict_get (d : list (string * pyval)) (k : string) (default : pyval) : pyval :=
  match assoc k d with
  | Some v => v
  | None => default
  end.

(** [v.get(k, default)] on any value: only a dictionary has the method. *)
Definition get (v : pyval) (k : string) (default : pyval) : result pyval :=
  match v with
  | PDict d => Ok (dict_get d k default)
  | _ => Raise AttributeError
  end.

(** [v.lower()]: only a string has the method. *)
Definition lower (v : pyval) : result string :=
  match v with
  | PStr s => Ok (PyStr.lower s)
  | _ => Raise AttributeError
  end.

(** *** Integer literals: [int(s)] for a string

    Blanks around, an optional sign, then digits, where single underscores
    may separate digits. *)

(** The rest of a digit part after its first digit: the digits read, without
    the underscores, and what is left. *)
Fixpoint digitpart_tail (s : string) : string * string :=
  match s with
  | String c r =>
      if PyStr.is_digit c then
        let '(d, t) := digitpart_tail r in (String c d, t)
      else if Ascii.eqb c "_" then
        match r with
        | String c2 r2 =>
            if PyStr.is_digit c2 then
              let '(d, t) := digitpart_tail r2 in (String c2 d, t)
            else (EmptyString, s)
        | EmptyString => (EmptyString, s)
        end
      else (EmptyString, s)
  | EmptyString => (EmptyString, EmptyString)
  end.

Definition digitpart (s : string) : option (string * string) :=
  match s with
  | String c r =>
      if PyStr.is_digit c then
        let '(d, t) := digitpart_tail r in Some (String c d, t)
      else None
  | EmptyString => None
  end.

(** An optional sign: whether it is a minus, and what follows. *)
Definition sign_opt (s : string) : bool * string :=
  match s with
  | String c r =>
      if Ascii.eqb c "-" then (true, r)
      else if Ascii.eqb c "+" then (false, r)
      else (false, s)
  | EmptyString => (false, s)
  end.

Definition int_of_str (s : string) : result Z :=
  let '(neg, body) := sign_opt (PyStr.strip s) in
  match digitpart body with
  | Some (d, EmptyString) => Ok (cond_Zopp neg (PyStr.digits_val d))
  | _ => Raise ValueError
  end.

(** [int(v)] *)
Definition int (v : pyval) : result Z :=
  match v with
  | PBool b => Ok (if b then 1 else 0)
  | PInt z => Ok z
  | PFloat f => F64.to_int f
  | PStr s => int_of_str s
  | PNone | PList _ | PDict _ => Raise TypeError
  end.

(** *** Float literals: [float(s)] for a string

    Blanks around, an optional sign, then [inf], [infinity] or [nan] in any
    case, or a decimal number: digits with an optional fraction and an
    optional exponent. *)

(** The exponent part, if any: its value and what follows. An [e] that no
    digit part follows is left unread. *)
Definition exponent_opt (s : string) : Z * string :=
  match s with
  | String c r =>
      if Ascii.eqb c "e" || Ascii.eqb c "E" then
        let '(neg, r') := sign_opt r in
        match digitpart r' with
        | Some (d, t) => (cond_Zopp neg (PyStr.digits_val d), t)
        | None => (0, s)
        end
      else (0, s)
  | EmptyString => (0, s)
  end.

(** The digits before and after the point, and what follows the number. *)
Definition mantissa (s : string) : option (string * string * string) :=
  match digitpart s with
  | Some (ip, String c r) =>
      if Ascii.eqb c "." then
        match digitpart r with
        | Some (fp, t) => Some (ip, fp, t)
        | None => Some (ip, EmptyString, r)
        end
      else Some (ip, EmptyString, String c r)
  | Some (ip, EmptyString) => Some (ip, EmptyString, EmptyString)
  | None =>
      match s with
      | String c r =>
          if Ascii.eqb c "." then
            match digitpart r with
            | Some (fp, t) => Some (EmptyString, fp, t)
            | None => None
            end
          else None
      | EmptyString => None
      end
  end.

(** The text after the sign. *)
Definition float_of_body (neg : bool) (body : string) : result F64.float :=
  let low := PyStr.lower body in
  if String.eqb low "inf" || String.eqb low "infinity" then Ok (S754_infinity neg)
  else if String.eqb low "nan" then Ok S754_nan
  else
    match mantissa body with
    | Some (ip, fp, t) =>
        match exponent_opt t with
        | (e, EmptyString) =>
            Ok (F64.of_decimal neg (PyStr.digits_val (ip +:+ fp))
                               (e - Z.of_nat (String.length fp)))
        | _ => Raise ValueError
        end
    | None => Raise ValueError
    end.

Definition float_of_str (s : string) : result F64.float :=
  let '(neg, body) := sign_opt (PyStr.strip s) in
  float_of_body neg body.

(** [float(v)] *)
Definition float (v : pyval) : result F64.float :=
  match v with
  | PBool b => Ok (if b then F64.round_Z 1 else F64.zero)
  | PInt z => F64.of_int z
  | PFloat f => Ok f
  | PStr s => float_of_str s
  | PNone | PList _ | PDict _ => Raise TypeError
  end.

(** [v == s] for a string literal [s]. *)
Definition eq_str (v : pyval) (s : string) : bool :=
  match v with
  | PStr t => String.eqb t s
  | _ => false
  end.

(** [for x in v]: the items a loop over [v] visits. A dictionary yields its
    keys and a string its characters; what is not iterable raises. *)
Fixpoint chars (s : string) : list pyval :=
  match s with
  | EmptyString => []
  | String c r => PStr (String c EmptyString) :: chars r
  end.

Definition iter (v : pyval) : result (list pyval) :=
  match v with
  | PList l => Ok l
  | PDict d => Ok (List.map (fun kv => PStr (fst kv)) d)
  | PStr s => Ok (chars s)
  | PNone | PBool _ | PInt _ | PFloat _ => Raise TypeError
  end.

(** [d[k] = v] on the items of a dictionary: an existing key keeps its
    place, a new key goes last. *)
Fixpoint dict_set (k : string) (v : pyval) (d : list (string * pyval)) : list (string * pyval) :=
  match d with
  | [] => [(k, v)]
  | (k', v') :: r =>
      if String.eqb k' k then (k', v) :: r else (k', v') :: dict_set k v r
  end.

(** [d.update(u)] *)
Definition dict_update (d u : list (string * pyval)) : list (string * pyval) :=
  fold_left (fun acc kv => dict_set (fst kv) (snd kv) acc) u d.

(** [l[start:stop]] with both bounds given: a negative bound counts from the
    end, and both are clipped to the list. *)
Definition clip_index (len i : Z) : Z :=
  if i <? 0 then Z.max 0 (i + len) else Z.min i len.

Definition slice {A : Type} (l : list A) (start stop : Z) : list A :=
  let len := Z.of_nat (length l) in
  let lo := clip_index len start in
  let hi := clip_index len stop in
  take (Z.to_nat (hi - lo)) (drop (Z.to_nat lo) l).

End Py.

(** ** Utilities *)

(** [_safe_get(obj, *keys, default=None)]

    The loop over the keys: [None] when the function returns the default
    from inside the loop, because the current node is not a dictionary. The
    keys are strings, so that [cur.get(k)] cannot raise and the [except]
    branch of the source is never taken. *)
Fixpoint safe_get_walk (cur : pyval) (keys : list string) : option pyval :=
  match keys with
  | [] => Some cur
  | k :: ks =>
      match cur with
      | PDict d => safe_get_walk (Py.dict_get d k PNone) ks
      | _ => None
      end
  end.

Definition _safe_get (obj : pyval) (keys : list string) (default : pyval) : pyval :=
  match safe_get_walk obj keys with
  | Some PNone => default
  | Some cur => cur
  | None => default
  end.

(** [_to_m_ss(seconds)] *)
Definition _to_m_ss (seconds : pyval) : string :=
  try_except
    (sec ← Py.int (Py.or_else seconds (PInt 0));
     let m := sec / 60 in
     let s := sec mod 60 in
     Ok (PyStr.str_of_Z m +:+ ":" +:+ PyStr.fmt_02d s))
    "-".

(** [kd_round_to_int(val)]

    Only [float(val)] stands under [try]; [int(n)] and what follows run
    outside of it. *)
Definition kd_round_to_int (val : pyval) : result Z :=
  match Py.float val with
  | Raise _ => Ok 0
  | Ok n =>
      i ← F64.to_int n;
      fi ← F64.of_int i;
      let frac := F64.abs (F64.sub n fi) in
      if F64.leb frac F64.lit_0_4 then Ok i
      else if F64.leb F64.lit_0_5 frac then
        Ok (i + (if F64.leb F64.zero n then 1 else -1))
      else Ok i
  end.


(** ** Match statistics *)

(** What the handler answers: the JSON body of a success, with the [page]
    and [limit] keys when the body has them, or an error status. The text
    of an error is not modelled. *)
Inductive response : Type :=
  | RespMatches (player : string) (paging : option (Z * Z)) (matches : list pyval)
  | RespError (status : Z).

Section MatchStats.

(** [_distance_str(walk, ride, swim)] formats a sum of floats with [%.2f] or
    [%.0f]; its whole body stands under [try ... except Exception], so that
    it returns a string for every input. No property below depends on which
    string it is, and the function is kept abstract. *)
Variable _distance_str : pyval -> pyval -> pyval -> string.

(** The loop of [extract_player_stats_from_match] over [included]: the stats
    of the first participant whose name is the player's, if any. *)
Fixpoint find_participant (included : list pyval) (player_name : pyval)
  : result (option pyval) :=
  match included with
  | [] => Ok None
  | inc :: rest =>
      ty ← Py.get inc "type" PNone;
      if Py.eq_str ty "participant" then
        let s := _safe_get inc ["attributes"; "stats"] (PDict []) in
        nm ← Py.get s "name" (PStr "");
        a ← Py.lower nm;
        b ← Py.lower (Py.or_else player_name (PStr ""));
        if String.eqb a b then Ok (Some s)
        else find_participant rest player_name
      else find_participant rest player_name
  end.

(** The dictionary [out] before the player is looked at. *)
Definition default_stats (match_id game_mode map_name created_at : pyval)
  : list (string * pyval) :=
  [ ("match_id", match_id); ("mode", game_mode); ("map", map_name);
    ("createdAt", created_at); ("rank", PNone); ("kills", PInt 0);
    ("damage", PFloat F64.zero); ("dbno", PInt 0);
    ("traveled", PStr "-"); ("timeAlive", PStr "-") ].

Definition extract_player_stats_from_match (match_json player_name : pyval)
  : result pyval :=
  data ← Py.get match_json "data" (PDict []);
  attrs ← Py.get data "attributes" (PDict []);
  inc0 ← Py.get match_json "included" (PList []);
  let included := Py.or_else inc0 (PList []) in
  gm ← Py.get attrs "gameMode" PNone;
  let game_mode := Py.or_else gm (PStr "-") in
  mn ← Py.get attrs "mapName" PNone;
  let map_name := Py.or_else mn (PStr "-") in
  ca ← Py.get attrs "createdAt" PNone;
  let created_at := Py.or_else ca (PStr "-") in
  items ← Py.iter included;
  participant ← find_participant items player_name;
  mid ← Py.get data "id" PNone;
  let out := default_stats mid game_mode map_name created_at in
  match participant with
  | None => Ok (PDict out)
  | Some p =>
      if negb (Py.truthy p) then Ok (PDict out)
      else
        rank ← Py.get p "winPlace" PNone;
        kills ← Py.get p "kills" (PInt 0);
        damage ← Py.get p "damageDealt" (PFloat F64.zero);
        dbno ← Py.get p "DBNOs" (PInt 0);
        walk ← Py.get p "walkDistance" (PFloat F64.zero);
        ride ← Py.get p "rideDistance" (PFloat F64.zero);
        swim ← Py.get p "swimDistance" (PFloat F64.zero);
        survived ← Py.get p "timeSurvived" (PInt 0);
        Ok (PDict (Py.dict_update out
              [ ("rank", rank); ("kills", kills); ("damage", damage);
                ("dbno", dbno);
                ("traveled", PStr (_distance_str walk ride swim));
                ("timeAlive", PStr (_to_m_ss survived)) ]))
  end.

(** *** The pager, [api_matches]

    The three calls to the PUBG API are collaborators; each returns a value
    or raises. [PUBG_API_KEY] is the environment variable, [None] when it is
    not set. *)
Variable PUBG_API_KEY : option string.
Variable get_player_id : string -> result string.
Variable get_player_match_ids : string -> result (list pyval).
Variable get_match_detail : pyval -> result pyval.

Definition require_pubg_key : bool :=
  match PUBG_API_KEY with
  | None => false
  | Some k => negb (String.eqb k "") && negb (String.eqb k "YOUR_PUBG_API_KEY_HERE")
  end.

(** [int(request.args.get(name, default) or default)]: a query parameter is
    a string when it is given. *)
Definition arg_int (arg : option string) (default : Z) : result Z :=
  let v := match arg with Some s => PStr s | None => PInt default end in
  Py.int (Py.or_else v (PInt default)).

(** The loop over [slice_ids]: a match that cannot be fetched or extracted
    is skipped. *)
Fixpoint collect_matches (slice_ids : list pyval) (player_name : string)
    (matches : list pyval) : list pyval :=
  match slice_ids with
  | [] => matches
  | mid :: rest =>
      match (mj ← get_match_detail mid;
             extract_player_stats_from_match mj (PStr player_name)) with
      | Ok st => collect_matches rest player_name (matches ++ [st])
      | Raise _ => collect_matches rest player_name matches
      end
  end.

Definition clamp_limit (limit : Z) : Z :=
  if limit <? 1 then 1 else if 50 <? limit then 50 else limit.

Definition api_matches (player_name : string) (page_arg limit_arg : option string)
  : result response :=
  if negb require_pubg_key then Ok (RespError 400)
  else
    p ← arg_int page_arg 0;
    let page := Z.max p 0 in
    l ← arg_int limit_arg 10;
    let limit := clamp_limit l in
    let body : result response :=
      pid ← get_player_id player_name;
      if String.eqb pid "" then Ok (RespMatches player_name None [])
      else
        all_ids ← get_player_match_ids pid;
        match all_ids with
        | [] => Ok (RespMatches player_name None [])
        | _ =>
            let start := page * limit in
            let end_ := start + limit in
            let slice_ids := Py.slice all_ids start end_ in
            Ok (RespMatches player_name (Some (page, limit))
                  (collect_matches slice_ids player_name []))
        end in
    Ok match body with
       | Ok r => r
       | Raise HTTPError => RespError 502
       | Raise _ => RespError 500
       end.

End MatchStats.

(** ** The scrape cache *)

(** A file of the cache directory: its text, or a file that cannot be read
    (no permission, not valid UTF-8). *)
Inductive file (text : Type) : Type :=
  | Unreadable
  | Readable (content : text).
Arguments Unreadable {text}.
Arguments Readable {text} content.

Definition CACHE_TTL_SEC : Z := 6 * 60 * 60.

(** [cache_path(tid, group, round_)]. The three arguments are strings, for
    which [group or ''] is [group]. *)
Definition cache_path (tid group round_ : string) : string :=
  let key := PyStr.replace_char "/" "_"
               (tid +:+ "__g=" +:+ group +:+ "__r=" +:+ round_) in
  ".twire_cache/" +:+ "player_stats_" +:+ key +:+ ".json".

Section Cache.

(** [json.dumps] and [json.loads] are the codec of the standard library,
    between values and the text of a file; [now] is a reading of
    [time.time()]. *)
Context {text : Type}.
Variable json_dumps : pyval -> text.
Variable json_loads : text -> result pyval.

Definition read_text (f : file text) : result text :=
  match f with
  | Readable t => Ok t
  | Unreadable => Raise OtherError
  end.

(** [x - v] for a float [x] and any value [v]. *)
Definition float_minus (x : F64.float) (v : pyval) : result F64.float :=
  match v with
  | PBool b => Ok (F64.sub x (if b then F64.round_Z 1 else F64.zero))
  | PInt z => fz ← F64.of_int z; Ok (F64.sub x fz)
  | PFloat f => Ok (F64.sub x f)
  | PNone | PStr _ | PList _ | PDict _ => Raise TypeError
  end.

(** The test of [load_cache] on a decoded entry; [None] of Python is
    [PNone]. *)
Definition load_entry (now : F64.float) (f : file text) : result pyval :=
  t ← read_text f;
  obj ← json_loads t;
  ts ← Py.get obj "_ts" (PInt 0);
  age ← float_minus now ts;
  if F64.leb age (F64.round_Z CACHE_TTL_SEC) then Py.get obj "data" PNone
  else Ok PNone.

Definition load_cache (fs : gmap string (file text)) (now : F64.float)
    (tid group round_ : string) : pyval :=
  let p := cache_path tid group round_ in
  match fs !! p with
  | Some f => try_except (load_entry now f) PNone
  | None => PNone
  end.

(** [save_cache]: the file system after the write. *)
Definition save_cache (fs : gmap string (file text)) (now : F64.float)
    (tid group round_ : string) (data : pyval) : result (gmap string (file text)) :=
  let p := cache_path tid group round_ in
  ts ← F64.to_int now;
  Ok (<[ p := Readable (json_dumps (PDict [("_ts", PInt ts); ("data", data)])) ]> fs).

End Cache.

(** ** The leaderboard page *)

(** The tree [BeautifulSoup(html, "lxml")] builds: text nodes and elements
    with a lower-case tag name. Attributes, comments and the parser itself
    are not modelled; the functions below start from the tree. *)
Inductive node : Type :=
  | Text (s : string)
  | Elem (tag : string) (children : list node).

Module Soup.

Definition is_tag (t : string) (n : node) : bool :=
  match n with
  | Elem t' _ => String.eqb t' t
  | Text _ => false
  end.

(** The nodes of a tree in document order, each with the tags of its
    ancestors, nearest first. [anc] lists the tags above the tree. *)
Fixpoint walk (anc : list string) (n : node) : list (list string * node) :=
  (anc, n) ::
  match n with
  | Text _ => []
  | Elem t cs => List.concat (List.map (walk (t :: anc)) cs)
  end.

Definition walk_all (anc : list string) (ns : list node) : list (list string * node) :=
  List.concat (List.map (walk anc) ns).

(** The nodes below a node. *)
Definition below (anc : list string) (n : node) : list (list string * node) :=
  match n with
  | Text _ => []
  | Elem t cs => walk_all (t :: anc) cs
  end.

(** [n.find_all(tags)]: the elements below [n] with one of the tags. *)
Definition find_all (tags : list string) (n : node) : list node :=
  List.map snd
    (List.filter (fun an => existsb (fun t => is_tag t (snd an)) tags) (below [] n)).

(** [n.select("a t")] for two tag names: the elements [t] below [n] that
    have an ancestor [a]. As in a CSS selector, the ancestor may stand
    above [n]. *)
Definition select2 (a t : string) (anc : list string) (n : node) : list node :=
  List.map snd
    (List.filter (fun an => is_tag t (snd an) && existsb (String.eqb a) (fst an))
       (below anc n)).

(** The stripped, non-empty strings below a node, and [get_text]. *)
Definition stripped_strings (n : node) : list string :=
  List.filter (fun s => negb (String.eqb s ""))
    (List.flat_map (fun an => match snd an with
                              | Text s => [PyStr.strip s]
                              | Elem _ _ => []
                              end) (below [] n)).

(** [n.get_text(sep, strip=True)] *)
Definition get_text (sep : string) (n : node) : string :=
  PyStr.join sep (stripped_strings n).

(** Every position of a list with what follows it. *)
Fixpoint positions {A : Type} (l : list A) : list (A * list A) :=
  match l with
  | [] => []
  | x :: r => (x, r) :: positions r
  end.

(** The first element with tag [t] among the first [n] nodes of [l], and
    the nodes after it. *)
Fixpoint find_within (t : string) (n : nat) (l : list (list string * node))
  : option (node * list (list string * node)) :=
  match n, l with
  | S n', (_, x) :: r => if is_tag t x then Some (x, r) else find_within t n' r
  | _, _ => None
  end.

End Soup.

(** A table of the page: the tags above it, the element, and the nodes of
    the page after its start tag. *)
Record table := {
  tb_anc : list string;
  tb_node : node;
  tb_after : list (list string * node)
}.

(** [soup.find_all("table")] *)
Definition find_tables (soup : list node) : list table :=
  List.flat_map
    (fun p => let '((a, n), r) := p in
              if Soup.is_tag "table" n then [ {| tb_anc := a; tb_node := n; tb_after := r |} ]
              else [])
    (Soup.positions (Soup.walk_all [] soup)).

(** [tb.find("tr")], with the nodes of the page after that row. *)
Definition first_tr (tb : table) : option (node * list (list string * node)) :=
  Soup.find_within "tr" (length (Soup.below (tb_anc tb) (tb_node tb))) (tb_after tb).

(** The header texts of a table, lower-cased: the cells [thead th], or
    else the cells of the first row. *)
Definition header_cells (tb : table) : list string :=
  let ths := List.map (fun th => PyStr.lower (Soup.get_text "" th))
               (Soup.select2 "thead" "th" (tb_anc tb) (tb_node tb)) in
  match ths with
  | [] =>
      match first_tr tb with
      | Some (fr, _) =>
          List.map (fun c => PyStr.lower (Soup.get_text "" c))
            (Soup.find_all ["th"; "td"] fr)
      | None => []
      end
  | _ => ths
  end.

Definition wanted : list string :=
  ["player"; "k/d"; "kills"; "assists"; "headshot"; "longest"].

(** [sum(any(w in h for h in ths) for w in wanted)] *)
Definition score (ths : list string) : Z :=
  Z.of_nat (length (List.filter (fun w => existsb (PyStr.contains w) ths) wanted)).

(** The loop over the tables: the first one that scores at least 4. *)
Fixpoint locate (tables : list table) : option table :=
  match tables with
  | [] => None
  | tb :: rest =>
      if 4 <=? score (header_cells tb) then Some tb else locate rest
  end.

(** The rows of the located table: [tbody tr] when [thead th] gave the
    headers, else every [tr] of the page after the first row of the table. *)
Definition body_rows (target : table) : list node :=
  match Soup.select2 "thead" "th" (tb_anc target) (tb_node target) with
  | [] =>
      match first_tr target with
      | Some (_, after) =>
          List.map snd (List.filter (fun an => Soup.is_tag "tr" (snd an)) after)
      | None => List.tl (Soup.find_all ["tr"] (tb_node target))
      end
  | _ => Soup.select2 "tbody" "tr" (tb_anc target) (tb_node target)
  end.

(** [find_idx(keys)]: the index of the first header that contains one of
    the keys, or [-1]. *)
Fixpoint find_idx_from (i : Z) (headers keys : list string) : Z :=
  match headers with
  | [] => -1
  | h :: r =>
      if existsb (fun k => PyStr.contains k h) keys then i
      else find_idx_from (i + 1) r keys
  end.

Definition find_idx (headers keys : list string) : Z := find_idx_from 0 headers keys.

(** *** The two regular expressions *)

Module Re.

(** A match of [-?\d+] at the start of [s]. *)
Definition match_int (s : string) : option string :=
  match s with
  | String c r =>
      if Ascii.eqb c "-" then
        match PyStr.span_digits r with
        | (EmptyString, _) => None
        | (d, _) => Some (String c d)
        end
      else
        match PyStr.span_digits s with
        | (EmptyString, _) => None
        | (d, _) => Some d
        end
  | EmptyString => None
  end.

(** The optional group [(\.\d+)?] at the start of [s]. *)
Definition match_frac (s : string) : string :=
  match s with
  | String c r =>
      if Ascii.eqb c "." then
        match PyStr.span_digits r with
        | (EmptyString, _) => EmptyString
        | (d, _) => String c d
        end
      else EmptyString
  | EmptyString => EmptyString
  end.

(** A match of [-?\d+(\.\d+)?] at the start of [s]. *)
Definition match_float (s : string) : option string :=
  match s with
  | String c r =>
      if Ascii.eqb c "-" then
        match PyStr.span_digits r with
        | (EmptyString, _) => None
        | (d, t) => Some (String c (d +:+ match_frac t))
        end
      else
        match PyStr.span_digits s with
        | (EmptyString, _) => None
        | (d, t) => Some (d +:+ match_frac t)
        end
  | EmptyString => None
  end.

(** [re.search(pattern, s)]: the match at the leftmost position that has
    one; [here] is the match of the pattern at the start of a string. *)
Fixpoint search (here : string -> option string) (s : string) : option string :=
  match here s with
  | Some m => Some m
  | None =>
      match s with
      | String _ r => search here r
      | EmptyString => None
      end
  end.

End Re.

(** [as_int(s)] and [as_float(s)] of [parse_twire_players]. *)
Definition as_int (s : string) : result Z :=
  let s := PyStr.remove_char "," s in
  match Re.search Re.match_int s with
  | Some m => Py.int (PStr m)
  | None => Ok 0
  end.

Definition as_float (s : string) : result F64.float :=
  let s := PyStr.remove_char "," s in
  match Re.search Re.match_float s with
  | Some m => Py.float (PStr m)
  | None => Ok F64.zero
  end.

(** The column of each field. *)
Record columns := {
  i_player : Z; i_kd : Z; i_kills : Z; i_ast : Z; i_hs : Z; i_long : Z
}.

Definition infer_columns (headers : list string) : columns :=
  {| i_player := find_idx headers ["player"; "ign"; "nickname"; "name"];
     i_kd := find_idx headers ["k/d"; "kd"];
     i_kills := find_idx headers ["kill"];
     i_ast := find_idx headers ["assist"];
     i_hs := find_idx headers ["headshot"];
     i_long := find_idx headers ["longest"] |}.

(** [val(i)]: the text of cell [i] of the row, or the empty string. *)
Definition val (tds : list node) (i : Z) : string :=
  if (0 <=? i) && (i <? Z.of_nat (length tds)) then
    match tds !! Z.to_nat i with
    | Some td => Soup.get_text " " td
    | None => ""
    end
  else "".

(** One turn of the loop over the rows: [None] when the row is skipped. *)
Definition parse_row (cols : columns) (tr : node) : result (option pyval) :=
  let tds := Soup.find_all ["td"; "th"] tr in
  if (length tds <? 3)%nat then Ok None
  else
    let ign := val tds (i_player cols) in
    if String.eqb ign "" || existsb (String.eqb (PyStr.lower ign)) ["player"; "name"]
    then Ok None
    else
      kd ← kd_round_to_int (PStr (val tds (i_kd cols)));
      kills ← as_int (val tds (i_kills cols));
      assists ← as_int (val tds (i_ast cols));
      hs ← as_int (val tds (i_hs cols));
      longest ← as_float (val tds (i_long cols));
      Ok (Some (PDict [ ("ign", PStr ign); ("kd", PInt kd);
                        ("kills_total", PInt kills);
                        ("assists_total", PInt assists);
                        ("headshot_kills", PInt hs);
                        ("longest_kill", PFloat longest) ])).

Fixpoint parse_rows (cols : columns) (rows : list node) (players : list pyval)
  : result (list pyval) :=
  match rows with
  | [] => Ok players
  | tr :: rest =>
      r ← parse_row cols tr;
      match r with
      | Some row => parse_rows cols rest (players ++ [row])
      | None => parse_rows cols rest players
      end
  end.

(** [parse_twire_players], from the parsed page. *)
Definition parse_twire_players (soup : list node) : result (list pyval) :=
  match locate (find_tables soup) with
  | None => Ok []
  | Some target =>
      let headers := header_cells target in
      parse_rows (infer_columns headers) (body_rows target) []
  end.


(** ** Reference definitions for the statements *)

(** The value stored in a document at a path of keys: [None] when a node on
    the way is not a dictionary or lacks the key. *)
Fixpoint path_lookup (obj : pyval) (keys : list string) : option pyval :=
  match keys with
  | [] => Some obj
  | k :: ks =>
      match obj with
      | PDict d =>
          match Py.assoc k d with
          | Some v => path_lookup v ks
          | None => None
          end
      | _ => None
      end
  end.

Definition is_none (v : pyval) : bool :=
  match v with PNone => true | _ => false end.

(** A number below 100 written with exactly two decimal digits. *)
Definition two_digits (z : Z) : string :=
  String (PyStr.chr (48 + Z.to_nat (z / 10)))
    (String (PyStr.chr (48 + Z.to_nat (z mod 10))) EmptyString).

(** What the pager keeps of one match id: the extracted statistics, or
    nothing when the retrieval or the extraction raises. *)
Definition fetch_stat (_distance_str : pyval -> pyval -> pyval -> string)
    (get_match_detail : pyval -> result pyval) (player_name : string)
    (mid : pyval) : option pyval :=
  match (mj ← get_match_detail mid;
         extract_player_stats_from_match _distance_str mj (PStr player_name)) with
  | Ok st => Some st
  | Raise _ => None
  end.

(** A record of [included] that cannot be taken for the player: a
    dictionary that is not a participant, or a participant whose stats carry
    a name, a string, that differs from the player's when both are
    lower-cased. *)
Definition other_record (player : string) (inc : pyval) : Prop :=
  exists d, inc = PDict d /\
    (Py.eq_str (Py.dict_get d "type" PNone) "participant" = true ->
     exists sd nm,
       _safe_get inc ["attributes"; "stats"] (PDict []) = PDict sd /\
       Py.dict_get sd "name" (PStr "") = PStr nm /\
       PyStr.lower nm <> PyStr.lower player).

(** A match document whose only participant has a null name. *)
Definition doc_null_name : pyval :=
  PDict
    [ ("data", PDict [ ("id", PStr "m1");
                       ("attributes", PDict [ ("gameMode", PStr "squad");
                                              ("mapName", PStr "Erangel");
                                              ("createdAt", PStr "2025-01-01T00:00:00Z") ]) ]);
      ("included",
        PList [ PDict [ ("type", PStr "participant");
                        ("attributes",
                          PDict [ ("stats", PDict [ ("name", PNone);
                                                    ("kills", PInt 3) ]) ]) ] ]) ].

(** A match-detail collaborator for three ids, of which "m2" cannot be
    fetched. *)
Definition demo_detail (mid : pyval) : result pyval :=
  if Py.eq_str mid "m2" then Raise HTTPError
  else Ok (PDict [("data", PDict [("id", mid)])]).


(** A page with a table scoring 1 before a table scoring 5. *)
Definition row_of (tag : string) (cells : list string) : node :=
  Elem "tr" (List.map (fun c => Elem tag [Text c]) cells).

Definition two_tables : list node :=
  [ Elem "html" [ Elem "body"
      [ Elem "table" [ row_of "td" ["Team"; "Kills"; "Points"];
                       row_of "td" ["Alpha"; "10"; "25"] ];
        Elem "table"
          [ Elem "thead" [ row_of "th" ["Player"; "K/D"; "Kills"; "Assists"; "Headshot Kills"] ];
            Elem "tbody" [ row_of "td" ["alice"; "2.5"; "1,234 kills"; "n/a"; "7"] ] ] ] ] ].

(** Shapes of texts: only digits, no digit at all, a digit first. *)
Fixpoint all_digits (s : string) : bool :=
  match s with
  | EmptyString => true
  | String c r => PyStr.is_digit c && all_digits r
  end.

Fixpoint no_space (s : string) : bool :=
  match s with
  | EmptyString => true
  | String c r => negb (PyStr.is_space c) && no_space r
  end.

Definition starts_with_digit (s : string) : bool :=
  match s with
  | String c _ => PyStr.is_digit c
  | EmptyString => false
  end.

(** A text of the pattern [-?\d+]: an optional minus sign and digits. *)
Definition int_text (m : string) : Prop :=
  exists sign digs,
    m = sign +:+ digs /\ (sign = "" \/ sign = "-") /\
    digs <> "" /\ all_digits digs = true.

(** A text of the pattern [-?\d+(\.\d+)?]: the sign, the integer digits and
    the fraction digits, empty when there is no fraction. *)
Definition float_text (m sign ip fp : string) : Prop :=
  (sign = "" \/ sign = "-") /\
  ip <> "" /\ all_digits ip = true /\ all_digits fp = true /\
  m = sign +:+ ip +:+ (if String.eqb fp "" then "" else String "." fp).

(** [pre] is where the leftmost match of a pattern starts in [pre +:+ rest]:
    the pattern matches at no position inside [pre]. *)
Definition leftmost (here : string -> option string) (pre rest : string) : Prop :=
  forall p1 p2, pre = p1 +:+ p2 -> p2 <> "" -> here (p2 +:+ rest) = None.

(** The integer a text of [-?\d+] denotes. *)
Definition signed_val (m : string) : Z :=
  match m with
  | String c r => if Ascii.eqb c "-" then - PyStr.digits_val r else PyStr.digits_val m
  | EmptyString => 0
  end.

(** What [as_int] and [as_float] read in a cell: the first text of the
    pattern once the commas are removed, or zero. *)
Definition int_field (s : string) : Z :=
  match Re.search Re.match_int (PyStr.remove_char "," s) with
  | Some m => signed_val m
  | None => 0
  end.

Definition decimal_of_body (neg : bool) (body : string) : F64.float :=
  let '(ip, t) := PyStr.span_digits body in
  let fp := match t with String _ f => f | EmptyString => "" end in
  F64.of_decimal neg (PyStr.digits_val (ip +:+ fp)) (- Z.of_nat (String.length fp)).

Definition decimal_val (m : string) : F64.float :=
  match m with
  | String c r => if Ascii.eqb c "-" then decimal_of_body true r else decimal_of_body false m
  | EmptyString => decimal_of_body false m
  end.

Definition float_field (s : string) : F64.float :=
  match Re.search Re.match_float (PyStr.remove_char "," s) with
  | Some m => decimal_val m
  | None => F64.zero
  end.



(** A float that is not below zero: a zero, a positive number or the
    positive infinity. *)
Definition float_nonneg (x : F64.float) : bool := F64.leb F64.zero x.

(** The numeric fields of a row are not negative. *)
Definition row_fields_nonneg (row : pyval) : Prop :=
  exists ign kd kills assists hs longest,
    row = PDict [ ("ign", PStr ign); ("kd", PInt kd);
                  ("kills_total", PInt kills); ("assists_total", PInt assists);
                  ("headshot_kills", PInt hs); ("longest_kill", PFloat longest) ] /\
    0 <= kills /\ 0 <= assists /\ 0 <= hs /\ float_nonneg longest = true.

(** No cell of the row has a minus sign in its text. *)
Definition row_without_minus (tr : node) : Prop :=
  Forall (fun td => PyStr.has_char "-" (Soup.get_text " " td) = false)
         (Soup.find_all ["td"; "th"] tr).

(** A page whose table has a headshot count of "-5". *)
Definition negative_cell : list node :=
  [ Elem "table"
      [ Elem "thead" [ row_of "th" ["Player"; "K/D"; "Kills"; "Assists"; "Headshot Kills"] ];
        Elem "tbody" [ row_of "td" ["bob"; "1.2"; "4"; "1"; "-5"] ] ] ].

(** The fraction of the finite number [m * 2^e], as a numerator over
    [2^(-e)]; it is 0 when the number is an integer. *)
Definition frac_num (m : positive) (e : Z) : Z :=
  if e <? 0 then Z.pos m mod 2 ^ (- e) else 0.

(** Rounding the finite number [(-1)^s * m * 2^e] to the nearest integer,
    a half going away from zero. *)
Definition round_half_away (s : bool) (m : positive) (e : Z) : Z :=
  let q := Z.shiftl (Z.pos m) e in
  if (e <? 0) && (2 ^ (- e) <=? 2 * frac_num m e) then cond_Zopp s (q + 1)
  else cond_Zopp s q.

(** The validity test of [load_cache] on a stored timestamp:
    [time.time() - ts <= CACHE_TTL_SEC], false when the subtraction raises. *)
Definition fresh (now : F64.float) (ts : pyval) : bool :=
  match float_minus now ts with
  | Ok age => F64.leb age (F64.round_Z CACHE_TTL_SEC)
  | Raise _ => false
  end.

(** A reading of the clock: a finite binary64 number in its format. *)
Definition clock_reading (t : F64.float) : Prop :=
  F64.is_finite t = true /\ valid_binary F64.prec F64.emax t = true.

(** Readings of [time.time()]: 1748736000.5 for a save, whose stored
    timestamp is 1748736000, then the instants 21600 and 21600.5 seconds
    after that timestamp. *)
Definition t_save : F64.float := F64.of_decimal false 17487360005 (-1).
Definition t_at_ttl : F64.float := F64.of_decimal false 1748757600 0.
Definition t_past_ttl : F64.float := F64.of_decimal false 17487576005 (-1).

(** A row list to store. *)
Definition demo_rows : list pyval :=
  [ PDict [ ("ign", PStr "alice"); ("kd", PInt 3); ("kills_total", PInt 1234);
            ("assists_total", PInt 0); ("headshot_kills", PInt 7);
            ("longest_kill", PFloat F64.zero) ] ].

(** The cache directory after the save of [demo_rows] at [t_save], for a
    codec that stores the value itself. *)
Definition demo_cache : gmap string (file pyval) :=
  <[ cache_path "2257" "A" "3" :=
       Readable (PDict [("_ts", PInt 1748736000); ("data", PList demo_rows)]) ]> ∅.

(** The names a triple may use for the path to determine it: no slash in
    any component, no underscore in the tournament id and in the group. *)
Definition plain_triple (tid group round_ : string) : Prop :=
  PyStr.has_char "/" tid = false /\ PyStr.has_char "_" tid = false /\
  PyStr.has_char "/" group = false /\ PyStr.has_char "_" group = false /\
  PyStr.has_char "/" round_ = false.

(** A digit part ends where neither a digit nor an underscore follows. *)
Definition ends_digitpart (t : string) : bool :=
  match t with
  | EmptyString => true
  | String c _ => negb (PyStr.is_digit c) && negb (Ascii.eqb c "_")
  end.

(** The fraction of a float text, as it stands in the text. *)
Definition frac_text (fp : string) : string :=
  if String.eqb fp "" then "" else String "." fp.

(** The 256 characters, one case each. *)
Ltac ascii_cases c :=
  let b0 := fresh in let b1 := fresh in let b2 := fresh in let b3 := fresh in
  let b4 := fresh in let b5 := fresh in let b6 := fresh in let b7 := fresh in
  destruct c as [b0 b1 b2 b3 b4 b5 b6 b7];
  destruct b0, b1, b2, b3, b4, b5, b6, b7.

(** A match document whose only participant is another player; a roster
    record comes with it. *)
Definition other_player_items : list (string * pyval) :=
  [ ("data", PDict [ ("id", PStr "m1");
                     ("attributes", PDict [ ("gameMode", PStr "squad");
                                            ("mapName", PNone) ]) ]);
    ("included",
      PList [ PDict [ ("type", PStr "participant");
                      ("attributes",
                        PDict [ ("stats", PDict [ ("name", PStr "Bob");
                                                  ("kills", PInt 3) ]) ]) ];
              PDict [ ("type", PStr "roster") ] ]) ].

Definition doc_other_player : pyval := PDict other_player_items.

(** ** The distance of a match *)

(** [x + y] and [x / y] on floats. *)
Module F64Arith.

Definition add (x y : F64.float) : F64.float := SFadd F64.prec F64.emax x y.
Definition div (x y : F64.float) : F64.float := SFdiv F64.prec F64.emax x y.

End F64Arith.

(** [format(x, ".Nf")]: a float written with a fixed number of decimals,
    correctly rounded, a tie going to the even digit. *)
Module Fmt.

(** [num / den] rounded to the nearest integer, for [0 <= num] and
    [0 < den]. *)
Definition div_half_even (num den : Z) : Z :=
  let q := num / den in
  let r := num mod den in
  if (den <? 2 * r) || ((den =? 2 * r) && Z.odd q) then q + 1 else q.

(** [m * 2^e * 10^digits] rounded to an integer. *)
Definition scaled (digits : nat) (m : positive) (e : Z) : Z :=
  let p10 := 10 ^ Z.of_nat digits in
  if 0 <=? e then Z.pos m * 2 ^ e * p10
  else div_half_even (Z.pos m * p10) (2 ^ (- e)).

Fixpoint zeros (n : nat) : string :=
  match n with
  | O => EmptyString
  | S n' => String "0" (zeros n')
  end.

(** The integer [n] read as a number with [digits] decimals. *)
Definition decimals (digits : nat) (n : Z) : string :=
  let p10 := 10 ^ Z.of_nat digits in
  let fp := PyStr.str_of_Z (n mod p10) in
  PyStr.str_of_Z (n / p10) +:+
  match digits with
  | O => ""
  | _ => "." +:+ zeros (digits - String.length fp) +:+ fp
  end.

Definition sign (s : bool) : string := if s then "-" else "".

Definition fixed (digits : nat) (x : F64.float) : string :=
  match x with
  | S754_nan => "nan"
  | S754_infinity s => sign s +:+ "inf"
  | S754_zero s => sign s +:+ decimals digits 0
  | S754_finite s m e => sign s +:+ decimals digits (scaled digits m e)
  end.

End Fmt.

(** [_distance_str(walk, ride, swim)] *)
Definition _distance_str (walk ride swim : pyval) : string :=
  try_except
    (w ← Py.float (Py.or_else walk (PInt 0));
     r ← Py.float (Py.or_else ride (PInt 0));
     s ← Py.float (Py.or_else swim (PInt 0));
     let total := F64Arith.add (F64Arith.add w r) s in
     if F64.leb (F64.round_Z 1000) total then
       Ok (Fmt.fixed 2 (F64Arith.div total (F64.round_Z 1000)) +:+ " km")
     else Ok (Fmt.fixed 0 total +:+ " m"))
    "-".

(** ** The calls to the PUBG API *)

(** [v[0]]: the first item of a list, the first character of a string. A
    dictionary of a JSON document has no key [0] and raises [KeyError], an
    empty sequence [IndexError]; both count as [OtherError] here. *)
Definition first_item (v : pyval) : result pyval :=
  match v with
  | PList (x :: _) => Ok x
  | PStr (String c _) => Ok (PStr (String c EmptyString))
  | PList [] | PStr EmptyString | PDict _ => Raise OtherError
  | PNone | PBool _ | PInt _ | PFloat _ => Raise TypeError
  end.

(** The comprehension of [get_player_match_ids]:
    [[x.get("id") for x in rel if x.get("type") == "match"]]. *)
Fixpoint match_ids (rel : list pyval) : result (list pyval) :=
  match rel with
  | [] => Ok []
  | x :: rest =>
      ty ← Py.get x "type" PNone;
      if Py.eq_str ty "match" then
        i ← Py.get x "id" PNone;
        ids ← match_ids rest;
        Ok (i :: ids)
      else match_ids rest
  end.

Section PubgApi.

(** [requests.get(url, headers=PUBG_HEADERS, params=params)] followed by
    [raise_for_status()] and [json()]: the decoded body, or an exception. *)
Variable PUBG_BASE : string.
Variable http_get_json : string -> list (string * string) -> result pyval.

Definition get_player_id (player_name : string) : result pyval :=
  data ← http_get_json (PUBG_BASE +:+ "/players") [("filter[playerNames]", player_name)];
  d ← Py.get data "data" PNone;
  let items := Py.or_else d (PList []) in
  if negb (Py.truthy items) then Ok (PStr "")
  else
    x ← first_item items;
    Py.get x "id" (PStr "").

Definition get_player_match_ids (player_id : string) : result (list pyval) :=
  data ← http_get_json (PUBG_BASE +:+ "/players/" +:+ player_id) [];
  let rel := _safe_get data ["data"; "relationships"; "matches"; "data"] (PList []) in
  items ← Py.iter rel;
  match_ids items.

Definition get_match_detail (match_id : string) : result pyval :=
  http_get_json (PUBG_BASE +:+ "/matches/" +:+ match_id) [].

End PubgApi.

(** ** The leaderboard handler *)

(** What [api_twire_player_stats] answers: the body of a success, or an
    error status. *)
Inductive twire_response : Type :=
  | TwirePlayers (cached : bool) (tournament_id group round_ : string) (players : pyval)
  | TwireError (status : Z).

(** The address [fetch_twire_players] opens. *)
Definition twire_url (tournament_id : string) (group round_ : option string) : string :=
  let base := "https://twire.gg/#!/en/pubg/tournaments/tournament/" +:+ tournament_id
              +:+ "/pubg-thailand-championship-2025-phase-2/player-stats" in
  let qs := (match group with Some g => ["group=" +:+ g] | None => [] end ++
             match round_ with Some r => ["round=" +:+ r] | None => [] end)%list in
  base +:+ match qs with
           | [] => ""
           | _ => "?" +:+ PyStr.join "&" qs
           end.

Section Twire.

Context {text : Type}.
Variable json_dumps : pyval -> text.
Variable json_loads : text -> result pyval.

(** The headless browser and the HTML parser: the tree of the page at an
    address, or an exception. *)
Variable page_tree : string -> result (list node).

Definition fetch_twire_players (tournament_id : string) (group round_ : option string)
  : result (list pyval) :=
  soup ← page_tree (twire_url tournament_id group round_);
  parse_twire_players soup.

(** [request.args.get(name, "")] *)
Definition arg_str (arg : option string) : string :=
  match arg with Some s => s | None => "" end.

(** The handler, with the cache directory before and after the request;
    [now_load] and [now_save] are the readings of the clock in [load_cache]
    and in [save_cache]. *)
Definition api_twire_player_stats (fs : gmap string (file text))
    (now_load now_save : F64.float) (tournament_id group round_ : option string)
  : twire_response * gmap string (file text) :=
  let tid := PyStr.strip (arg_str tournament_id) in
  if String.eqb tid "" then (TwireError 400, fs)
  else
    let group := arg_str group in
    let round_ := arg_str round_ in
    let cached := load_cache json_loads fs now_load tid group round_ in
    if negb (is_none cached) then (TwirePlayers true tid group round_ cached, fs)
    else
      match (players ← fetch_twire_players tid (Some group) (Some round_);
             fs' ← save_cache json_dumps fs now_save tid group round_ (PList players);
             Ok (players, fs')) with
      | Ok (players, fs') => (TwirePlayers false tid group round_ (PList players), fs')
      | Raise _ => (TwireError 500, fs)
      end.

End Twire.

(** * Properties *)

(** ** Strings *)

#[local] Arguments String.append !s1 s2 : simpl nomatch.



Lemma str_app_nil_r (s : string) : s +:+ "" = s.
Proof. induction s as [|c s IH]; cbn [String.append]; [reflexivity | rewrite IH; reflexivity]. Qed.

Lemma str_app_assoc (a b c : string) : (a +:+ b) +:+ c = a +:+ (b +:+ c).
Proof. induction a as [|x a IH]; cbn [String.append]; [reflexivity | rewrite IH; reflexivity]. Qed.

Lemma str_length_app (a b : string) :
  String.length (a +:+ b) = (String.length a + String.length b)%nat.
Proof.
  induction a as [|x a IH]; cbn [String.append String.length];
    [reflexivity | rewrite IH; reflexivity].
Qed.

Lemma str_app_inv_tail (a b t : string) : a +:+ t = b +:+ t -> a = b.
Proof.
  revert b. induction a as [|x a IH]; intros [|y b] H.
  - reflexivity.
  - apply (f_equal String.length) in H. simpl in H. rewrite str_length_app in H. lia.
  - apply (f_equal String.length) in H. simpl in H. rewrite str_length_app in H. lia.
  - simpl in H. injection H as -> H. rewrite (IH b H). reflexivity.
Qed.

Lemma has_char_app (c : ascii) (a b : string) :
  PyStr.has_char c (a +:+ b) = PyStr.has_char c a || PyStr.has_char c b.
Proof.
  induction a as [|x a IH]; simpl; [reflexivity|].
  rewrite IH, orb_assoc. reflexivity.
Qed.

Lemma replace_char_absent (c d : ascii) (s : string) :
  PyStr.has_char c s = false -> PyStr.replace_char c d s = s.
Proof.
  induction s as [|x s IH]; simpl; [reflexivity|].
  intros H. apply orb_false_elim in H as [Hx Hs].
  rewrite Hx, (IH Hs). reflexivity.
Qed.

(** Two strings without [c] that are followed by [c] in equal texts are
    equal, and so are the rests. *)
Lemma split_at_char (c : ascii) (a a' x x' : string) :
  PyStr.has_char c a = false -> PyStr.has_char c a' = false ->
  a +:+ String c x = a' +:+ String c x' -> a = a' /\ x = x'.
Proof.
  revert a'. induction a as [|y a IH]; intros [|y' a'] Ha Ha' H; simpl in *.
  - injection H as ->. split; reflexivity.
  - injection H as <- _. rewrite Ascii.eqb_refl in Ha'. discriminate.
  - injection H as -> _. rewrite Ascii.eqb_refl in Ha. discriminate.
  - injection H as -> H.
    apply orb_false_elim in Ha as [_ Ha]. apply orb_false_elim in Ha' as [_ Ha'].
    destruct (IH a' Ha Ha' H) as [-> ->]. split; reflexivity.
Qed.

(** ** The safe accessor *)

Lemma safe_get_walk_none (ks : list string) :
  safe_get_walk PNone ks = Some PNone \/ safe_get_walk PNone ks = None.
Proof. destruct ks; simpl; auto. Qed.

(** C10. [_safe_get] is a total function of the document, the path and the
    default, and it returns the default in three cases: the traversal stops
    at a node that is not a dictionary, a key of the path is absent, or the
    whole path exists and the value stored there is [None]. In the only
    other case it returns the value stored at the path. *)
Theorem C10_safe_get_default (obj : pyval) (keys : list string) (default : pyval) :
  _safe_get obj keys default =
  match path_lookup obj keys with
  | None => default
  | Some v => if is_none v then default else v
  end.
Proof.
  unfold _safe_get. revert obj.
  induction keys as [|k ks IH]; intros obj; simpl.
  - destruct obj; reflexivity.
  - destruct obj; try reflexivity.
    unfold Py.dict_get. destruct (Py.assoc k d) as [v|]; [apply IH|].
    destruct (safe_get_walk_none ks) as [-> | ->]; reflexivity.
Qed.

(** ** Time formatting *)

Lemma fmt_02d_two_digits (z : Z) :
  0 <= z < 100 -> PyStr.fmt_02d z = two_digits z.
Proof.
  intros Hz.
  assert (exists n : nat, z = Z.of_nat n /\ (n < 100)%nat) as [n [-> Hn]]
    by (exists (Z.to_nat z); lia).
  do 100 (destruct n as [|n]; [reflexivity|]). lia.
Qed.

Lemma to_m_ss_int (s : Z) :
  _to_m_ss (PInt s) = PyStr.str_of_Z (s / 60) +:+ ":" +:+ PyStr.fmt_02d (s mod 60).
Proof.
  unfold _to_m_ss, Py.or_else. simpl.
  destruct (Z.eqb_spec s 0) as [-> | Hs]; reflexivity.
Qed.

Lemma to_m_ss_falsy (v : pyval) : Py.truthy v = false -> _to_m_ss v = "0:00".
Proof. intros Hv. unfold _to_m_ss, Py.or_else. rewrite Hv. reflexivity. Qed.

Lemma to_m_ss_rejected (v : pyval) (e : exn) :
  Py.truthy v = true -> Py.int v = Raise e -> _to_m_ss v = "-".
Proof. intros Hv He. unfold _to_m_ss, Py.or_else. rewrite Hv, He. reflexivity. Qed.

(** C7, as the code has it. A number of seconds [s >= 0] is rendered as the
    minutes [s / 60] in decimal, a colon, and the seconds [s mod 60] on two
    digits, so that 0, 65 and 425 give "0:00", "1:05" and "7:05". An input
    that is [None], or falsy in any other way, is replaced by 0 and gives
    "0:00", not the sentinel. The sentinel "-" is the result for a truthy
    input that [int] rejects. *)
Theorem C7_to_m_ss_format :
  (forall s : Z, 0 <= s ->
     _to_m_ss (PInt s) = PyStr.str_of_Z (s / 60) +:+ ":" +:+ two_digits (s mod 60)) /\
  _to_m_ss (PInt 0) = "0:00" /\
  _to_m_ss (PInt 65) = "1:05" /\
  _to_m_ss (PInt 425) = "7:05" /\
  (forall v : pyval, Py.truthy v = false -> _to_m_ss v = "0:00") /\
  (forall (v : pyval) (e : exn),
     Py.truthy v = true -> Py.int v = Raise e -> _to_m_ss v = "-") /\
  _to_m_ss (PStr "abc") = "-".
Proof.
  repeat split; try reflexivity.
  - intros s Hs. rewrite to_m_ss_int, fmt_02d_two_digits; [reflexivity|].
    pose proof (Z.mod_pos_bound s 60). lia.
  - apply to_m_ss_falsy.
  - apply to_m_ss_rejected.
Qed.

Lemma C7_to_m_ss_format_witness :
  _to_m_ss (PInt 3725) = "62:05" /\ _to_m_ss (PStr "") = "0:00" /\
  _to_m_ss (PList [PInt 1]) = "-".
Proof.
  destruct C7_to_m_ss_format as [Hint [_ [_ [_ [Hfalsy [Hrej _]]]]]].
  split; [| split].
  - rewrite (Hint 3725); [reflexivity | lia].
  - apply (Hfalsy (PStr "")). reflexivity.
  - apply (Hrej (PList [PInt 1]) TypeError); reflexivity.
Defined.

(** C7 as stated fails for a missing input: [None] gives "0:00". *)
Lemma C7_none_counterexample :
  ~ (forall v : pyval, Py.truthy v = false -> _to_m_ss v = "-") /\
  _to_m_ss PNone = "0:00" /\ _to_m_ss PNone <> "-".
Proof.
  split; [| split; [reflexivity | discriminate]].
  intros H. specialize (H PNone eq_refl). discriminate H.
Qed.

(** ** The rounding of a ratio *)

Lemma kd_round_examples :
  kd_round_to_int (PStr "2.39") = Ok 2 /\
  kd_round_to_int (PStr "2.45") = Ok 2 /\
  kd_round_to_int (PStr "2.5") = Ok 3 /\
  kd_round_to_int (PStr "-1.5") = Ok (-2).
Proof. repeat split; vm_compute; reflexivity. Qed.

Lemma kd_round_not_a_float (v : pyval) (e : exn) :
  Py.float v = Raise e -> kd_round_to_int v = Ok 0.
Proof. intros H. unfold kd_round_to_int. rewrite H. reflexivity. Qed.

Lemma kd_round_nan (v : pyval) :
  Py.float v = Ok S754_nan -> kd_round_to_int v = Raise ValueError.
Proof. intros H. unfold kd_round_to_int. rewrite H. reflexivity. Qed.

Lemma kd_round_infinity (v : pyval) (s : bool) :
  Py.float v = Ok (S754_infinity s) -> kd_round_to_int v = Raise OverflowError.
Proof. intros H. unfold kd_round_to_int. rewrite H. reflexivity. Qed.

(** ** The extractor *)

Section ExtractorFacts.

Variable _distance_str : pyval -> pyval -> pyval -> string.

Abbreviation extract := (extract_player_stats_from_match _distance_str).

Lemma find_participant_others (player : string) (items : list pyval) :
  Forall (other_record player) items ->
  find_participant items (PStr player) = Ok None.
Proof.
  induction 1 as [|inc items [d [-> Hd]] _ IH]; [reflexivity|].
  cbn [find_participant Py.get mbind result_bind].
  destruct (Py.eq_str (Py.dict_get d "type" PNone) "participant") eqn:Hty; [|exact IH].
  destruct (Hd eq_refl) as [sd [nm [-> [Hnm Hne]]]].
  cbn [Py.get mbind result_bind]. rewrite Hnm.
  cbn [Py.lower mbind result_bind].
  assert (Py.or_else (PStr player) (PStr "") = PStr player) as ->.
  { unfold Py.or_else. simpl. destruct player; reflexivity. }
  cbn [Py.lower mbind result_bind].
  destruct (String.eqb_spec (PyStr.lower nm) (PyStr.lower player)); [contradiction | exact IH].
Qed.

(** The extractor on a document of the expected shape in which no record
    can be taken for the player: the match-level fields and the defaults. *)
Lemma extract_defaults (m data attrs : list (string * pyval)) (items : list pyval)
    (player : string) :
  Py.dict_get m "data" (PDict []) = PDict data ->
  Py.dict_get data "attributes" (PDict []) = PDict attrs ->
  Py.iter (Py.or_else (Py.dict_get m "included" (PList [])) (PList [])) = Ok items ->
  Forall (other_record player) items ->
  extract (PDict m) (PStr player) =
  Ok (PDict (default_stats
               (Py.dict_get data "id" PNone)
               (Py.or_else (Py.dict_get attrs "gameMode" PNone) (PStr "-"))
               (Py.or_else (Py.dict_get attrs "mapName" PNone) (PStr "-"))
               (Py.or_else (Py.dict_get attrs "createdAt" PNone) (PStr "-")))).
Proof.
  intros Hdata Hattrs Hitems Hothers.
  unfold extract_player_stats_from_match.
  cbn [Py.get mbind result_bind]. rewrite Hdata.
  cbn [Py.get mbind result_bind]. rewrite Hattrs.
  cbn [Py.get mbind result_bind]. rewrite Hitems.
  cbn [mbind result_bind]. rewrite (find_participant_others _ _ Hothers).
  reflexivity.
Qed.

(** C6 on the code. On a document of the expected shape in which no record
    can be taken for the player, the extractor returns the match-level
    fields and the defaults. But the shape is needed: no participant of
    [doc_null_name] bears the name "alice", the only one having a null
    name; [s.get("name", "")] then returns [None], [None.lower()] raises,
    and the extractor returns no record. *)
Theorem C6_extract_missing_player :
  (forall (m data attrs : list (string * pyval)) (items : list pyval) (player : string),
     Py.dict_get m "data" (PDict []) = PDict data ->
     Py.dict_get data "attributes" (PDict []) = PDict attrs ->
     Py.iter (Py.or_else (Py.dict_get m "included" (PList [])) (PList [])) = Ok items ->
     Forall (other_record player) items ->
     extract (PDict m) (PStr player) =
     Ok (PDict
           [ ("match_id", Py.dict_get data "id" PNone);
             ("mode", Py.or_else (Py.dict_get attrs "gameMode" PNone) (PStr "-"));
             ("map", Py.or_else (Py.dict_get attrs "mapName" PNone) (PStr "-"));
             ("createdAt", Py.or_else (Py.dict_get attrs "createdAt" PNone) (PStr "-"));
             ("rank", PNone); ("kills", PInt 0); ("damage", PFloat F64.zero);
             ("dbno", PInt 0); ("traveled", PStr "-"); ("timeAlive", PStr "-") ])) /\
  extract doc_null_name (PStr "alice") = Raise AttributeError.
Proof.
  split; [exact extract_defaults | reflexivity].
Qed.

End ExtractorFacts.

(** An instance of C6: the only participant of [doc_other_player] is "bob",
    and the statistics extracted for "alice" are the defaults. *)
Lemma C6_extract_missing_player_witness :
  extract_player_stats_from_match (fun _ _ _ => "0 m") doc_other_player (PStr "alice") =
  Ok (PDict [ ("match_id", PStr "m1"); ("mode", PStr "squad"); ("map", PStr "-");
              ("createdAt", PStr "-"); ("rank", PNone); ("kills", PInt 0);
              ("damage", PFloat F64.zero); ("dbno", PInt 0);
              ("traveled", PStr "-"); ("timeAlive", PStr "-") ]).
Proof.
  destruct (C6_extract_missing_player (fun _ _ _ => "0 m")) as [Hdefaults _].
  refine (Hdefaults other_player_items
            [ ("id", PStr "m1");
              ("attributes", PDict [ ("gameMode", PStr "squad"); ("mapName", PNone) ]) ]
            [ ("gameMode", PStr "squad"); ("mapName", PNone) ]
            _ "alice" eq_refl eq_refl eq_refl _).
  repeat constructor.
  - eexists. split; [reflexivity|]. intros _.
    eexists _, "Bob". repeat split. discriminate.
  - eexists. split; [reflexivity|]. discriminate.
Defined.

(** ** The pager *)

Lemma clip_index_nonneg (len i : Z) :
  0 <= len -> 0 <= i -> Py.clip_index len i = Z.min i len.
Proof. intros _ Hi. unfold Py.clip_index. destruct (Z.ltb_spec i 0); [lia | reflexivity]. Qed.

Lemma slice_take_drop {A : Type} (l : list A) (start stop : Z) :
  0 <= start <= stop ->
  Py.slice l start stop = take (Z.to_nat (stop - start)) (drop (Z.to_nat start) l).
Proof.
  intros H. unfold Py.slice.
  rewrite !clip_index_nonneg by lia.
  destruct (Z.le_gt_cases (Z.of_nat (length l)) start) as [Hfar | Hin].
  - rewrite !drop_ge by lia. rewrite !take_nil. reflexivity.
  - rewrite (Z.min_l start) by lia.
    destruct (Z.le_gt_cases stop (Z.of_nat (length l))) as [Hle | Hgt].
    + rewrite Z.min_l by lia. reflexivity.
    + rewrite Z.min_r by lia.
      rewrite !take_ge; [reflexivity | |]; rewrite length_drop; lia.
Qed.

Lemma clamp_limit_range (l : Z) :
  1 <= clamp_limit l <= 50 /\
  (1 <= l <= 50 -> clamp_limit l = l) /\
  (l < 1 -> clamp_limit l = 1) /\
  (50 < l -> clamp_limit l = 50).
Proof.
  unfold clamp_limit.
  destruct (Z.ltb_spec l 1); destruct (Z.ltb_spec 50 l); lia.
Qed.

Section PagerFacts.

Variable _distance_str : pyval -> pyval -> pyval -> string.
Variable PUBG_API_KEY : option string.
Variable get_player_id : string -> result string.
Variable get_player_match_ids : string -> result (list pyval).
Variable get_match_detail : pyval -> result pyval.

Abbreviation fetch := (fetch_stat _distance_str get_match_detail).

Lemma collect_matches_omap (player : string) (ids acc : list pyval) :
  collect_matches _distance_str get_match_detail ids player acc =
  (acc ++ omap (fetch player) ids)%list.
Proof.
  revert acc. induction ids as [|mid ids IH]; intros acc.
  - simpl. rewrite app_nil_r. reflexivity.
  - assert (omap (fetch player) (mid :: ids) =
            match fetch player mid with
            | Some st => st :: omap (fetch player) ids
            | None => omap (fetch player) ids
            end) as -> by reflexivity.
    cbn [collect_matches]. unfold fetch_stat at 1.
    destruct (mj ← get_match_detail mid;
              extract_player_stats_from_match _distance_str mj (PStr player)) as [st|e].
    + rewrite IH, <- app_assoc. reflexivity.
    + apply IH.
Qed.

Lemma omap_length_le {A B : Type} (f : A -> option B) (l : list A) :
  (length (omap f l) <= length l)%nat.
Proof.
  induction l as [|x l IH]; [reflexivity|].
  change (omap f (x :: l))
    with (match f x with Some y => y :: omap f l | None => omap f l end).
  destruct (f x); simpl; lia.
Qed.

(** C5. With a key configured, a known player and the list [ids] of the
    player's matches, the handler clamps the requested limit into [1, 50],
    takes the ids from [page * limit] up to [page * limit + limit] (none
    past the end of the list) and answers, in that order, the statistics of
    those ids that could be fetched and extracted, skipping the others.
    The ids taken are the slice [ids[page*limit : page*limit + limit]] of
    Python, which is empty when it starts past the end. With 25 ids, page 2
    and limit 10, these are the ids from index 20 on, and at most 5
    results. *)
Theorem C5_pager_slice (player : string) (page_arg limit_arg : option string)
    (p l : Z) (pid : string) (ids : list pyval) :
  require_pubg_key PUBG_API_KEY = true ->
  arg_int page_arg 0 = Ok p ->
  arg_int limit_arg 10 = Ok l ->
  0 <= p ->
  get_player_id player = Ok pid ->
  pid <> "" ->
  get_player_match_ids pid = Ok ids ->
  let limit := clamp_limit l in
  let slice_ids := take (Z.to_nat limit) (drop (Z.to_nat (p * limit)) ids) in
  let matches := omap (fetch player) slice_ids in
  1 <= limit <= 50 /\
  (1 <= l <= 50 -> limit = l) /\ (l < 1 -> limit = 1) /\ (50 < l -> limit = 50) /\
  (exists paging,
     api_matches _distance_str PUBG_API_KEY get_player_id get_player_match_ids
       get_match_detail player page_arg limit_arg
     = Ok (RespMatches player paging matches)) /\
  Py.slice ids (p * limit) (p * limit + limit) = slice_ids /\
  (Z.of_nat (length ids) <= p * limit -> slice_ids = []) /\
  (length matches <= length slice_ids)%nat /\
  (length ids = 25%nat -> p = 2 -> limit = 10 ->
   slice_ids = drop 20 ids /\ (length matches <= 5)%nat).
Proof.
  intros Hkey Hp Hl Hp0 Hpid Hne Hids limit slice_ids matches.
  destruct (clamp_limit_range l) as [Hrange [Hin [Hlo Hhi]]].
  split; [exact Hrange|]. split; [exact Hin|]. split; [exact Hlo|]. split; [exact Hhi|].
  split; [| split; [| split; [| split]]].
  - unfold api_matches. rewrite Hkey, Hp. cbn [negb mbind result_bind].
    rewrite Hl. cbn [mbind result_bind]. rewrite Hpid. cbn [mbind result_bind].
    destruct (String.eqb_spec pid "") as [Heq | _]; [contradiction|].
    rewrite Hids. cbn [mbind result_bind].
    subst matches slice_ids limit.
    destruct ids as [|i0 ids'] eqn:Eids.
    + exists None. rewrite drop_nil, take_nil. reflexivity.
    + exists (Some (Z.max p 0, clamp_limit l)). rewrite <- Eids.
      rewrite collect_matches_omap. cbn [app].
      rewrite slice_take_drop by lia.
      rewrite Z.max_l by lia.
      replace (p * clamp_limit l + clamp_limit l - p * clamp_limit l)
        with (clamp_limit l) by lia.
      reflexivity.
  - subst slice_ids. rewrite slice_take_drop by (fold limit; lia).
    replace (p * limit + limit - p * limit) with limit by lia. reflexivity.
  - intros Hfar. subst slice_ids. rewrite drop_ge by lia. apply take_nil.
  - apply omap_length_le.
  - intros Hlen -> Hlim. subst matches slice_ids. rewrite Hlim.
    change (Z.to_nat (2 * 10)) with 20%nat. change (Z.to_nat 10) with 10%nat.
    assert (take 10 (drop 20 ids) = drop 20 ids) as Htake
      by (apply take_ge; rewrite length_drop; lia).
    rewrite Htake. split; [reflexivity|].
    etransitivity; [apply omap_length_le|]. rewrite length_drop. lia.
Qed.

End PagerFacts.

(** An instance of C5: a key, three match ids of which the second cannot be
    fetched, page 0 and limit 2. *)
Lemma C5_pager_slice_witness :
  exists paging,
    api_matches (fun _ _ _ => "0 m") (Some "key") (fun _ => Ok "account.1")
      (fun _ => Ok [PStr "m1"; PStr "m2"; PStr "m3"]) demo_detail
      "alice" (Some "0") (Some "2")
    = Ok (RespMatches "alice" paging
            [PDict (default_stats (PStr "m1") (PStr "-") (PStr "-") (PStr "-"))]).
Proof.
  destruct (C5_pager_slice (fun _ _ _ => "0 m") (Some "key") (fun _ => Ok "account.1")
              (fun _ => Ok [PStr "m1"; PStr "m2"; PStr "m3"]) demo_detail
              "alice" (Some "0") (Some "2") 0 2 "account.1"
              [PStr "m1"; PStr "m2"; PStr "m3"])
    as [_ [_ [_ [_ [Hresp _]]]]];
    try reflexivity; try lia; try discriminate.
  exact Hresp.
Defined.

(** ** The cache key *)

Lemma cache_path_plain (tid group round_ : string) :
  plain_triple tid group round_ ->
  cache_path tid group round_ =
  ".twire_cache/player_stats_" +:+ (tid +:+ "__g=" +:+ group +:+ "__r=" +:+ round_) +:+ ".json".
Proof.
  intros (Ht & _ & Hg & _ & Hr). unfold cache_path.
  rewrite replace_char_absent; [reflexivity|].
  rewrite !has_char_app, Ht, Hg, Hr. reflexivity.
Qed.

(** C8, as the code has it. On the triples whose components contain no
    slash and whose tournament id and group contain no underscore, the path
    of the cache file determines the triple. *)
Theorem C8_cache_path_injective (tid group round_ tid' group' round_' : string) :
  plain_triple tid group round_ ->
  plain_triple tid' group' round_' ->
  cache_path tid group round_ = cache_path tid' group' round_' ->
  tid = tid' /\ group = group' /\ round_ = round_'.
Proof.
  intros H H' Heq.
  rewrite (cache_path_plain _ _ _ H), (cache_path_plain _ _ _ H') in Heq.
  apply (inj (String.app _)) in Heq. apply str_app_inv_tail in Heq.
  destruct H as (_ & Ht & _ & Hg & _), H' as (_ & Ht' & _ & Hg' & _).
  change (tid +:+ String "_" ("_g=" +:+ group +:+ "__r=" +:+ round_) =
          tid' +:+ String "_" ("_g=" +:+ group' +:+ "__r=" +:+ round_')) in Heq.
  apply split_at_char in Heq as [-> Heq]; [| assumption | assumption].
  cbn [String.append] in Heq. injection Heq as Heq.
  change (group +:+ String "_" ("_r=" +:+ round_) =
          group' +:+ String "_" ("_r=" +:+ round_')) in Heq.
  apply split_at_char in Heq as [-> Heq]; [| assumption | assumption].
  cbn [String.append] in Heq. injection Heq as ->.
  repeat split.
Qed.

Lemma C8_cache_path_injective_witness :
  "2257" = "2257" /\ "A" = "A" /\ "3" = "3".
Proof.
  apply (C8_cache_path_injective "2257" "A" "3" "2257" "A" "3").
  - repeat split.
  - repeat split.
  - reflexivity.
Defined.

(** C8 as stated fails: a slash is stored as an underscore, and the
    separators may occur in a component, so that distinct triples share a
    path. *)
Lemma C8_collision_counterexample :
  ~ (forall tid group round_ tid' group' round_' : string,
       cache_path tid group round_ = cache_path tid' group' round_' ->
       (tid, group, round_) = (tid', group', round_')) /\
  cache_path "a/b" "" "" = cache_path "a_b" "" "" /\
  cache_path "1" "x__r=y" "" = cache_path "1" "x" "y__r=".
Proof.
  split; [| split; reflexivity].
  intros H. specialize (H "a/b" "" "" "a_b" "" "" eq_refl). discriminate H.
Qed.

(** ** The table locator *)







(** ** The two regular expressions *)

Lemma span_digits_spec (s d t : string) :
  PyStr.span_digits s = (d, t) ->
  s = d +:+ t /\ all_digits d = true /\ starts_with_digit t = false.
Proof.
  revert d t. induction s as [|c r IH]; intros d t H; simpl in H.
  - injection H as <- <-. repeat split.
  - destruct (PyStr.is_digit c) eqn:Hc.
    + destruct (PyStr.span_digits r) as [d' t'] eqn:E.
      injection H as <- <-. destruct (IH d' t' eq_refl) as (-> & Hd & Ht).
      repeat split; [| exact Ht]. cbn [all_digits]. rewrite Hc, Hd. reflexivity.
    + injection H as <- <-. repeat split. exact Hc.
Qed.

Lemma span_digits_app (d t : string) :
  all_digits d = true -> starts_with_digit t = false ->
  PyStr.span_digits (d +:+ t) = (d, t).
Proof.
  intros Hd Ht. induction d as [|c d IH]; cbn [String.append all_digits] in *.
  - destruct t as [|c t]; [reflexivity|]. cbn [starts_with_digit] in Ht.
    cbn [PyStr.span_digits]. rewrite Ht. reflexivity.
  - apply andb_true_iff in Hd as [Hc Hd].
    cbn [PyStr.span_digits]. rewrite Hc, (IH Hd). reflexivity.
Qed.

(** [re.search] returns the match at the leftmost position that has one. *)
Lemma search_spec (here : string -> option string) (s : string) :
  match Re.search here s with
  | Some m => exists pre rest, s = pre +:+ rest /\ here rest = Some m /\ leftmost here pre rest
  | None => forall p1 p2, s = p1 +:+ p2 -> here p2 = None
  end.
Proof.
  induction s as [|c r IH]; cbn [Re.search].
  - destruct (here "") as [m|] eqn:E.
    + exists "", "". repeat split; [exact E|].
      intros [|? ?] p2 H; simpl in H; [subst p2; contradiction | discriminate].
    + intros [|? ?] p2 H; simpl in H; [subst p2; exact E | discriminate].
  - destruct (here (String c r)) as [m|] eqn:E.
    + exists "", (String c r). repeat split; [exact E|].
      intros [|? ?] p2 H; simpl in H; [subst p2; contradiction | discriminate].
    + destruct (Re.search here r) as [m|].
      * destruct IH as [pre [rest [-> [Hm Hleft]]]].
        exists (String c pre), rest. repeat split; [exact Hm|].
        intros [|x p1] p2 H Hne; simpl in H.
        -- subst p2. exact E.
        -- injection H as _ H. exact (Hleft p1 p2 H Hne).
      * intros [|x p1] p2 H; simpl in H.
        -- subst p2. exact E.
        -- injection H as _ H. exact (IH p1 p2 H).
Qed.

(** A match of [-?\d+] is an optional sign and the longest run of digits
    after it. *)
Lemma match_int_shape (s m : string) :
  Re.match_int s = Some m ->
  int_text m /\ exists post, s = m +:+ post /\ starts_with_digit post = false.
Proof.
  unfold Re.match_int, int_text. destruct s as [|c r]; [discriminate|].
  destruct (Ascii.eqb_spec c "-") as [-> | Hc].
  - destruct (PyStr.span_digits r) as [d t] eqn:E.
    destruct (span_digits_spec _ _ _ E) as (-> & Hd & Ht).
    destruct d as [|x d]; [discriminate|]. intros H. injection H as <-.
    split; [exists "-", (String x d) | exists t]; repeat split; auto; discriminate.
  - destruct (PyStr.span_digits (String c r)) as [d t] eqn:E.
    destruct (span_digits_spec _ _ _ E) as (Hs & Hd & Ht).
    destruct d as [|x d]; [discriminate|]. intros H. injection H as <-.
    split; [exists "", (String x d) | exists t]; repeat split; auto; discriminate.
Qed.


Lemma match_frac_shape (t : string) :
  exists fp post,
    all_digits fp = true /\
    Re.match_frac t = (if String.eqb fp "" then "" else String "." fp) /\
    t = Re.match_frac t +:+ post.
Proof.
  unfold Re.match_frac. destruct t as [|c r].
  - exists "", "". repeat split.
  - destruct (Ascii.eqb_spec c ".") as [-> | Hc].
    + destruct (PyStr.span_digits r) as [d u] eqn:E.
      destruct (span_digits_spec _ _ _ E) as (-> & Hd & _).
      destruct d as [|x d].
      * exists "", (String "." u). repeat split.
      * exists (String x d), u. repeat split. exact Hd.
    + exists "", (String c r). repeat split.
Qed.

(** A match of [-?\d+(\.\d+)?] is an optional sign, the longest run of
    digits after it and, when a point and a digit follow, the point and the
    longest run of digits after it. *)
Lemma match_float_shape (s m : string) :
  Re.match_float s = Some m ->
  exists sign ip fp post, float_text m sign ip fp /\ s = m +:+ post.
Proof.
  unfold Re.match_float, float_text. destruct s as [|c r]; [discriminate|].
  destruct (Ascii.eqb_spec c "-") as [-> | Hc].
  - destruct (PyStr.span_digits r) as [d t] eqn:E.
    destruct (span_digits_spec _ _ _ E) as (-> & Hd & Ht).
    destruct (match_frac_shape t) as (fp & post & Hfp & Hfrac & Hpost).
    destruct d as [|x d]; [discriminate|]. intros H. injection H as <-.
    exists "-", (String x d), fp, post. rewrite <- Hfrac.
    repeat split; auto; try discriminate.
    rewrite Hpost at 1. simpl. rewrite !str_app_assoc. reflexivity.
  - destruct (PyStr.span_digits (String c r)) as [d t] eqn:E.
    destruct (span_digits_spec _ _ _ E) as (Hs & Hd & Ht).
    destruct (match_frac_shape t) as (fp & post & Hfp & Hfrac & Hpost).
    destruct d as [|x d]; [discriminate|]. intros H. injection H as <-.
    exists "", (String x d), fp, post. rewrite <- Hfrac.
    repeat split; auto; try discriminate.
    rewrite Hs. rewrite Hpost at 1. simpl. rewrite !str_app_assoc. reflexivity.
Qed.

(** ** Reading a matched text as a number *)

Lemma digit_char_facts (c : ascii) :
  PyStr.is_digit c = true ->
  PyStr.is_space c = false /\ PyStr.lower_char c = c /\
  Ascii.eqb c "-" = false /\ Ascii.eqb c "+" = false /\ Ascii.eqb c "_" = false /\
  Ascii.eqb c "." = false /\ Ascii.eqb c "i" = false /\ Ascii.eqb c "n" = false /\
  0 <= PyStr.digit_val c <= 9.
Proof.
  ascii_cases c; intros H; try discriminate H; repeat split; (reflexivity || discriminate).
Qed.

Lemma lstrip_first (c : ascii) (r : string) :
  PyStr.is_space c = false -> PyStr.lstrip (String c r) = String c r.
Proof. intros H. simpl. rewrite H. reflexivity. Qed.

Lemma rstrip_no_space (s : string) : no_space s = true -> PyStr.rstrip s = s.
Proof.
  induction s as [|c r IH]; [reflexivity|].
  cbn [no_space PyStr.rstrip]. intros H. apply andb_true_iff in H as [Hc Hr].
  rewrite (IH Hr). destruct r; [| reflexivity].
  apply negb_true_iff in Hc. rewrite Hc. reflexivity.
Qed.

Lemma strip_no_space (s : string) : no_space s = true -> PyStr.strip s = s.
Proof.
  intros H. unfold PyStr.strip. destruct s as [|c r]; [reflexivity|].
  pose proof H as H'. cbn [no_space] in H'. apply andb_true_iff in H' as [Hc _].
  apply negb_true_iff in Hc. rewrite (lstrip_first _ _ Hc).
  apply rstrip_no_space, H.
Qed.

Lemma all_digits_no_space (d : string) : all_digits d = true -> no_space d = true.
Proof.
  induction d as [|c d IH]; [reflexivity|].
  cbn [all_digits no_space]. intros H. apply andb_true_iff in H as [Hc Hd].
  destruct (digit_char_facts c Hc) as (-> & _). rewrite (IH Hd). reflexivity.
Qed.

Lemma all_digits_lower (d : string) : all_digits d = true -> PyStr.lower d = d.
Proof.
  induction d as [|c d IH]; [reflexivity|].
  cbn [all_digits PyStr.lower]. intros H. apply andb_true_iff in H as [Hc Hd].
  destruct (digit_char_facts c Hc) as (_ & -> & _). rewrite (IH Hd). reflexivity.
Qed.

Lemma all_digits_app (a b : string) :
  all_digits (a +:+ b) = all_digits a && all_digits b.
Proof.
  induction a as [|c a IH]; cbn [String.append all_digits]; [reflexivity|].
  rewrite IH, andb_assoc. reflexivity.
Qed.

Lemma no_space_app (a b : string) :
  no_space (a +:+ b) = no_space a && no_space b.
Proof.
  induction a as [|c a IH]; cbn [String.append no_space]; [reflexivity|].
  rewrite IH, andb_assoc. reflexivity.
Qed.

Lemma digitpart_tail_app (d t : string) :
  all_digits d = true -> ends_digitpart t = true ->
  Py.digitpart_tail (d +:+ t) = (d, t).
Proof.
  intros Hd Ht. induction d as [|c d IH]; cbn [String.append all_digits] in *.
  - destruct t as [|c t]; [reflexivity|].
    cbn [ends_digitpart] in Ht. apply andb_true_iff in Ht as [H1 H2].
    apply negb_true_iff in H1, H2. cbn [Py.digitpart_tail]. rewrite H1, H2. reflexivity.
  - apply andb_true_iff in Hd as [Hc Hd].
    cbn [Py.digitpart_tail]. rewrite Hc, (IH Hd). reflexivity.
Qed.

Lemma digitpart_app (d t : string) :
  d <> "" -> all_digits d = true -> ends_digitpart t = true ->
  Py.digitpart (d +:+ t) = Some (d, t).
Proof.
  intros Hne Hd Ht. destruct d as [|c d]; [contradiction|].
  cbn [String.append all_digits] in *. apply andb_true_iff in Hd as [Hc Hd].
  unfold Py.digitpart. rewrite Hc, (digitpart_tail_app d t Hd Ht). reflexivity.
Qed.

Lemma sign_opt_digits (d : string) :
  starts_with_digit d = true -> Py.sign_opt d = (false, d).
Proof.
  destruct d as [|c d]; [discriminate|]. cbn [starts_with_digit]. intros Hc.
  destruct (digit_char_facts c Hc) as (_ & _ & H1 & H2 & _).
  unfold Py.sign_opt. rewrite H1, H2. reflexivity.
Qed.

Lemma nonempty_digits_start (d t : string) :
  d <> "" -> all_digits d = true -> starts_with_digit (d +:+ t) = true.
Proof.
  destruct d as [|c d]; [contradiction|]. intros _ H.
  cbn [all_digits] in H. apply andb_true_iff in H as [Hc _]. exact Hc.
Qed.

(** [int] reads every text of the pattern [-?\d+], as the integer it
    denotes. *)
Lemma int_of_int_text (m : string) :
  int_text m -> Py.int (PStr m) = Ok (signed_val m).
Proof.
  intros (sign & digs & -> & Hsign & Hne & Hd).
  pose proof (nonempty_digits_start digs "" Hne Hd) as Hstart.
  rewrite str_app_nil_r in Hstart.
  cbn [Py.int]. unfold Py.int_of_str.
  assert (Py.digitpart digs = Some (digs, "")) as Hdp.
  { rewrite <- (str_app_nil_r digs) at 1. apply digitpart_app; auto. }
  destruct Hsign as [-> | ->]; cbn [String.append].
  - rewrite (strip_no_space digs (all_digits_no_space _ Hd)).
    rewrite (sign_opt_digits digs Hstart), Hdp.
    unfold signed_val. destruct digs as [|c digs]; [contradiction|].
    cbn [starts_with_digit] in Hstart.
    destruct (digit_char_facts c Hstart) as (_ & _ & -> & _). reflexivity.
  - rewrite strip_no_space
      by (cbn [no_space]; rewrite (all_digits_no_space _ Hd); reflexivity).
    cbn [Py.sign_opt Ascii.eqb Bool.eqb]. rewrite Hdp. reflexivity.
Qed.

Lemma lower_app (a b : string) :
  PyStr.lower (a +:+ b) = PyStr.lower a +:+ PyStr.lower b.
Proof.
  induction a as [|c a IH]; cbn [String.append PyStr.lower]; [reflexivity|].
  rewrite IH. reflexivity.
Qed.

Lemma digit_first_not_keyword (c : ascii) (r : string) :
  PyStr.is_digit c = true ->
  String.eqb (String c r) "inf" || String.eqb (String c r) "infinity" = false /\
  String.eqb (String c r) "nan" = false.
Proof.
  intros Hc. destruct (digit_char_facts c Hc) as (_ & _ & _ & _ & _ & _ & Hi & Hn & _).
  cbn [String.eqb]. rewrite Hi, Hn. split; reflexivity.
Qed.

Lemma frac_text_facts (fp : string) :
  all_digits fp = true ->
  starts_with_digit (frac_text fp) = false /\
  ends_digitpart (frac_text fp) = true /\
  no_space (frac_text fp) = true /\
  PyStr.lower (frac_text fp) = frac_text fp.
Proof.
  intros Hfp. unfold frac_text. destruct (String.eqb_spec fp "") as [-> | Hne].
  - repeat split.
  - repeat split.
    + cbn [no_space]. rewrite (all_digits_no_space _ Hfp). reflexivity.
    + cbn [PyStr.lower]. rewrite (all_digits_lower _ Hfp). reflexivity.
Qed.

Lemma mantissa_float_body (ip fp : string) :
  ip <> "" -> all_digits ip = true -> all_digits fp = true ->
  Py.mantissa (ip +:+ frac_text fp) = Some (ip, fp, "").
Proof.
  intros Hne Hip Hfp.
  destruct (frac_text_facts fp Hfp) as (_ & Hend & _).
  unfold Py.mantissa. rewrite (digitpart_app ip _ Hne Hip Hend).
  unfold frac_text. destruct (String.eqb_spec fp "") as [-> | Hfne]; [reflexivity|].
  cbn [Ascii.eqb Bool.eqb]. cbv iota beta.
  rewrite <- (str_app_nil_r fp) at 1.
  rewrite (digitpart_app fp "" Hfne Hfp eq_refl). reflexivity.
Qed.

Lemma float_of_body_text (neg : bool) (ip fp : string) :
  ip <> "" -> all_digits ip = true -> all_digits fp = true ->
  Py.float_of_body neg (ip +:+ frac_text fp) =
  Ok (F64.of_decimal neg (PyStr.digits_val (ip +:+ fp)) (- Z.of_nat (String.length fp))).
Proof.
  intros Hne Hip Hfp. unfold Py.float_of_body.
  destruct (frac_text_facts fp Hfp) as (_ & _ & _ & Hlow).
  rewrite lower_app, (all_digits_lower _ Hip), Hlow.
  rewrite (mantissa_float_body ip fp Hne Hip Hfp).
  destruct ip as [|c ip]; [contradiction|].
  cbn [all_digits] in Hip. apply andb_true_iff in Hip as [Hc _].
  cbn [String.append].
  destruct (digit_first_not_keyword c (ip +:+ frac_text fp) Hc) as [-> ->].
  cbn [Py.exponent_opt]. rewrite Z.sub_0_l. reflexivity.
Qed.

Lemma decimal_of_body_text (neg : bool) (ip fp : string) :
  all_digits ip = true -> all_digits fp = true ->
  decimal_of_body neg (ip +:+ frac_text fp) =
  F64.of_decimal neg (PyStr.digits_val (ip +:+ fp)) (- Z.of_nat (String.length fp)).
Proof.
  intros Hip Hfp. destruct (frac_text_facts fp Hfp) as (Hstart & _).
  unfold decimal_of_body. rewrite (span_digits_app ip _ Hip Hstart).
  unfold frac_text. destruct (String.eqb_spec fp "") as [-> | _]; reflexivity.
Qed.

(** [float] reads every text of the pattern [-?\d+(\.\d+)?], as the decimal
    number it denotes. *)
Lemma float_of_float_text (m sign ip fp : string) :
  float_text m sign ip fp -> Py.float (PStr m) = Ok (decimal_val m).
Proof.
  intros (Hsign & Hne & Hip & Hfp & ->). fold (frac_text fp).
  destruct (frac_text_facts fp Hfp) as (_ & _ & Hns & _).
  pose proof (nonempty_digits_start ip (frac_text fp) Hne Hip) as Hstart.
  assert (no_space (ip +:+ frac_text fp) = true) as Hbody
    by (rewrite no_space_app, (all_digits_no_space _ Hip), Hns; reflexivity).
  cbn [Py.float]. unfold Py.float_of_str, decimal_val.
  destruct Hsign as [-> | ->]; cbn [String.append].
  - rewrite (strip_no_space _ Hbody), (sign_opt_digits _ Hstart).
    rewrite (float_of_body_text false ip fp Hne Hip Hfp).
    destruct (ip +:+ frac_text fp) as [|c r] eqn:E; [discriminate Hstart|].
    cbn [starts_with_digit] in Hstart.
    destruct (digit_char_facts c Hstart) as (_ & _ & -> & _).
    rewrite <- E, (decimal_of_body_text false ip fp Hip Hfp). reflexivity.
  - rewrite strip_no_space by (cbn [no_space]; rewrite Hbody; reflexivity).
    cbn [Py.sign_opt Ascii.eqb Bool.eqb]. cbv iota beta.
    rewrite (float_of_body_text true ip fp Hne Hip Hfp).
    rewrite (decimal_of_body_text true ip fp Hip Hfp). reflexivity.
Qed.

(** ** The row parser *)

Lemma as_int_total (s : string) : as_int s = Ok (int_field s).
Proof.
  unfold as_int, int_field.
  pose proof (search_spec Re.match_int (PyStr.remove_char "," s)) as H.
  destruct (Re.search Re.match_int (PyStr.remove_char "," s)) as [m|]; [| reflexivity].
  destruct H as (pre & rest & _ & Hm & _).
  apply int_of_int_text. exact (proj1 (match_int_shape _ _ Hm)).
Qed.

Lemma as_float_total (s : string) : as_float s = Ok (float_field s).
Proof.
  unfold as_float, float_field.
  pose proof (search_spec Re.match_float (PyStr.remove_char "," s)) as H.
  destruct (Re.search Re.match_float (PyStr.remove_char "," s)) as [m|]; [| reflexivity].
  destruct H as (pre & rest & _ & Hm & _).
  destruct (match_float_shape _ _ Hm) as (sign & ip & fp & post & Hshape & _).
  exact (float_of_float_text _ _ _ _ Hshape).
Qed.







(** ** Floats that are not negative *)

Lemma iter_pos_invariant {A : Type} (P : A -> Prop) (f : A -> A) :
  (forall x, P x -> P (f x)) -> forall n x, P x -> P (SpecFloat.iter_pos f n x).
Proof.
  intros Hf. induction n as [n IH | n IH |]; intros x Hx; cbn [SpecFloat.iter_pos]; auto.
Qed.

Lemma shr_1_nonneg (mrs : shr_record) : 0 <= shr_m mrs -> 0 <= shr_m (shr_1 mrs).
Proof.
  destruct mrs as [m r s]. cbn [shr_m]. intros Hm.
  destruct m as [|[p|p|]|p]; cbn; lia.
Qed.

Lemma shr_nonneg (mrs : shr_record) (e n : Z) :
  0 <= shr_m mrs -> 0 <= shr_m (fst (shr mrs e n)).
Proof.
  intros Hm. unfold shr. destruct n as [|p|p]; cbn [fst]; try exact Hm.
  apply (iter_pos_invariant (fun r => 0 <= shr_m r)); [exact shr_1_nonneg | exact Hm].
Qed.

Lemma shr_fexp_nonneg (prec emax m e : Z) (l : location) :
  0 <= m -> 0 <= shr_m (fst (shr_fexp prec emax m e l)).
Proof.
  intros Hm. unfold shr_fexp. apply shr_nonneg.
  destruct l as [|[]]; exact Hm.
Qed.

Lemma round_nearest_even_nonneg (m : Z) (l : location) :
  0 <= m -> 0 <= round_nearest_even m l.
Proof.
  intros Hm. unfold round_nearest_even.
  destruct l as [|[]]; try lia. destruct (Z.even m); lia.
Qed.

Lemma binary_round_aux_nonneg (mx ex : Z) (lx : location) :
  0 <= mx ->
  float_nonneg (binary_round_aux F64.prec F64.emax false mx ex lx) = true.
Proof.
  intros Hm. unfold binary_round_aux.
  pose proof (shr_fexp_nonneg F64.prec F64.emax mx ex lx Hm) as H1.
  destruct (shr_fexp F64.prec F64.emax mx ex lx) as [mrs1 e1]. cbn [fst] in H1.
  pose proof (shr_fexp_nonneg F64.prec F64.emax _ e1 loc_Exact
                (round_nearest_even_nonneg _ (loc_of_shr_record mrs1) H1)) as H2.
  destruct (shr_fexp F64.prec F64.emax
              (round_nearest_even (shr_m mrs1) (loc_of_shr_record mrs1)) e1 loc_Exact)
    as [mrs2 e2]. cbn [fst] in H2.
  destruct (shr_m mrs2) as [|p|p]; [reflexivity | | lia].
  destruct (e2 <=? F64.emax - F64.prec); reflexivity.
Qed.

Lemma of_decimal_nonneg (m e : Z) :
  0 <= m -> float_nonneg (F64.of_decimal false m e) = true.
Proof.
  intros Hm. unfold F64.of_decimal. destruct m as [|p|p]; [reflexivity | | lia].
  destruct (0 <=? e).
  - unfold binary_round.
    destruct (shl_align _ _ _) as [mz ez]. apply binary_round_aux_nonneg. lia.
  - unfold SFdiv, SFdiv_core_binary.
    set (m' := match _ - _ with Z0 => _ | Zpos _ => _ | Zneg _ => _ end).
    assert (0 <= m') as Hm'.
    { subst m'. destruct (_ - _); [lia | | lia]. apply Z.shiftl_nonneg. lia. }
    pose proof (Z.div_pos m' (Z.pos (Z.to_pos (10 ^ (- e)))) Hm' ltac:(lia)) as Hq.
    unfold Z.div in Hq.
    destruct (Z.div_eucl m' (Z.pos (Z.to_pos (10 ^ (- e))))) as [q r]. cbn [fst] in Hq.
    apply binary_round_aux_nonneg. exact Hq.
Qed.

(** ** The bounds of the numeric fields *)

Lemma has_char_remove (c d : ascii) (s : string) :
  PyStr.has_char c s = false -> PyStr.has_char c (PyStr.remove_char d s) = false.
Proof.
  induction s as [|x s IH]; [reflexivity|].
  cbn [PyStr.has_char PyStr.remove_char]. intros H.
  apply orb_false_elim in H as [Hx Hs].
  destruct (Ascii.eqb x d); [exact (IH Hs)|].
  cbn [PyStr.has_char]. rewrite Hx, (IH Hs). reflexivity.
Qed.

Lemma digits_val_acc_nonneg (d : string) (acc : Z) :
  all_digits d = true -> 0 <= acc -> 0 <= PyStr.digits_val_acc acc d.
Proof.
  revert acc. induction d as [|c d IH]; intros acc Hd Hacc; [exact Hacc|].
  cbn [all_digits] in Hd. apply andb_true_iff in Hd as [Hc Hd].
  cbn [PyStr.digits_val_acc]. apply IH; [exact Hd|].
  destruct (digit_char_facts c Hc) as (_ & _ & _ & _ & _ & _ & _ & _ & Hv). lia.
Qed.

Lemma digits_val_nonneg (d : string) : all_digits d = true -> 0 <= PyStr.digits_val d.
Proof. intros Hd. apply digits_val_acc_nonneg; [exact Hd | lia]. Qed.

(** A text without a minus sign that holds a signed text holds it without
    its sign. *)
Lemma unsigned_in_plain_text (pre sign body post : string) :
  PyStr.has_char "-" (pre +:+ (sign +:+ body) +:+ post) = false ->
  sign = "" \/ sign = "-" -> sign = "".
Proof.
  intros H [-> | ->]; [reflexivity|].
  rewrite !has_char_app in H. cbn in H. rewrite orb_true_r in H. discriminate H.
Qed.

Lemma int_field_nonneg (s : string) :
  PyStr.has_char "-" s = false -> 0 <= int_field s.
Proof.
  intros Hs. apply (has_char_remove _ ",") in Hs. unfold int_field.
  pose proof (search_spec Re.match_int (PyStr.remove_char "," s)) as H.
  destruct (Re.search Re.match_int (PyStr.remove_char "," s)) as [m|]; [| lia].
  destruct H as (pre & rest & Heq & Hm & _).
  destruct (match_int_shape _ _ Hm) as ((sign & digs & Em & Hsign & Hne & Hd) & post & Er & _).
  rewrite Heq, Er, Em in Hs. rewrite Em.
  rewrite (unsigned_in_plain_text pre sign digs post Hs Hsign). cbn [String.append].
  pose proof (nonempty_digits_start digs "" Hne Hd) as Hstart.
  rewrite str_app_nil_r in Hstart.
  destruct digs as [|c digs]; [contradiction|]. cbn [starts_with_digit] in Hstart.
  unfold signed_val. destruct (digit_char_facts c Hstart) as (_ & _ & -> & _).
  apply digits_val_nonneg, Hd.
Qed.

Lemma float_field_nonneg (s : string) :
  PyStr.has_char "-" s = false -> float_nonneg (float_field s) = true.
Proof.
  intros Hs. apply (has_char_remove _ ",") in Hs. unfold float_field.
  pose proof (search_spec Re.match_float (PyStr.remove_char "," s)) as H.
  destruct (Re.search Re.match_float (PyStr.remove_char "," s)) as [m|]; [| reflexivity].
  destruct H as (pre & rest & Heq & Hm & _).
  destruct (match_float_shape _ _ Hm)
    as (sign & ip & fp & post & (Hsign & Hne & Hip & Hfp & Em) & Er).
  fold (frac_text fp) in Em. rewrite Heq, Er, Em in Hs. rewrite Em.
  rewrite (unsigned_in_plain_text pre sign _ post Hs Hsign). cbn [String.append].
  pose proof (nonempty_digits_start ip (frac_text fp) Hne Hip) as Hstart.
  unfold decimal_val.
  destruct (ip +:+ frac_text fp) as [|c r] eqn:E; [discriminate Hstart|].
  cbn [starts_with_digit] in Hstart.
  destruct (digit_char_facts c Hstart) as (_ & _ & -> & _).
  rewrite <- E, (decimal_of_body_text false ip fp Hip Hfp).
  apply of_decimal_nonneg, digits_val_nonneg.
  rewrite all_digits_app, Hip, Hfp. reflexivity.
Qed.

Lemma val_without_minus (tds : list node) (i : Z) :
  Forall (fun td => PyStr.has_char "-" (Soup.get_text " " td) = false) tds ->
  PyStr.has_char "-" (val tds i) = false.
Proof.
  intros H. unfold val.
  destruct ((0 <=? i) && (i <? Z.of_nat (length tds))); [| reflexivity].
  destruct (tds !! Z.to_nat i) as [td|] eqn:E; [| reflexivity].
  exact (Forall_lookup_1 _ _ _ _ H E).
Qed.

(** The fields of a row that is kept, each with the bound it has when its
    cell is free of a minus sign. *)
Lemma parse_row_fields (cols : columns) (tr : node) (row : pyval) :
  parse_row cols tr = Ok (Some row) ->
  let tds := Soup.find_all ["td"; "th"] tr in
  exists ign kd kills assists hs longest,
    row = PDict [ ("ign", PStr ign); ("kd", PInt kd);
                  ("kills_total", PInt kills); ("assists_total", PInt assists);
                  ("headshot_kills", PInt hs); ("longest_kill", PFloat longest) ] /\
    (PyStr.has_char "-" (val tds (i_kills cols)) = false -> 0 <= kills) /\
    (PyStr.has_char "-" (val tds (i_ast cols)) = false -> 0 <= assists) /\
    (PyStr.has_char "-" (val tds (i_hs cols)) = false -> 0 <= hs) /\
    (PyStr.has_char "-" (val tds (i_long cols)) = false -> float_nonneg longest = true).
Proof.
  intros H tds. unfold parse_row in H. fold tds in H.
  destruct (length tds <? 3)%nat; [discriminate H|].
  destruct (_ || _); [discriminate H|].
  rewrite !as_int_total, as_float_total in H.
  destruct (kd_round_to_int (PStr (val tds (i_kd cols)))) as [kd|e]; [| discriminate H].
  cbn [mbind result_bind] in H. injection H as <-.
  eexists _, kd, _, _, _, _. split; [reflexivity|].
  repeat split; first [apply int_field_nonneg | apply float_field_nonneg].
Qed.

Lemma parse_row_nonneg (cols : columns) (tr : node) (row : pyval) :
  row_without_minus tr -> parse_row cols tr = Ok (Some row) -> row_fields_nonneg row.
Proof.
  intros Hplain H.
  destruct (parse_row_fields cols tr row H)
    as (ign & kd & k & a & h & l & -> & Hk & Ha & Hh & Hl).
  exists ign, kd, k, a, h, l. split; [reflexivity|].
  repeat split; [apply Hk | apply Ha | apply Hh | apply Hl];
    apply val_without_minus, Hplain.
Qed.

Lemma parse_rows_nonneg (cols : columns) (rows : list node) (acc out : list pyval) :
  Forall row_without_minus rows -> Forall row_fields_nonneg acc ->
  parse_rows cols rows acc = Ok out -> Forall row_fields_nonneg out.
Proof.
  intros Hrows. revert acc. induction Hrows as [|tr rows Htr _ IH]; intros acc Hacc H.
  - cbn in H. injection H as <-. exact Hacc.
  - cbn [parse_rows] in H.
    destruct (parse_row cols tr) as [[row|]|e] eqn:E; cbn [mbind result_bind] in H.
    + apply (IH _ (Forall_app_2 _ _ _ Hacc
                     (Forall_cons_2 _ _ _ (parse_row_nonneg _ _ _ Htr E) (Forall_nil_2 _))) H).
    + exact (IH _ Hacc H).
    + discriminate H.
Qed.

(** C9, as the code has it. The three counts of a row are integers and the
    longest kill is a float; each of them is at least zero when the text of
    its cell contains no minus sign, and so is every one of them in a page
    where no cell of the rows read has one. A minus sign before the first
    digits of a cell is part of the number that is read. *)
Theorem C9_fields_nonneg :
  (forall (cols : columns) (tr : node) (row : pyval),
     parse_row cols tr = Ok (Some row) ->
     let tds := Soup.find_all ["td"; "th"] tr in
     exists ign kd kills assists hs longest,
       row = PDict [ ("ign", PStr ign); ("kd", PInt kd);
                     ("kills_total", PInt kills); ("assists_total", PInt assists);
                     ("headshot_kills", PInt hs); ("longest_kill", PFloat longest) ] /\
       (PyStr.has_char "-" (val tds (i_kills cols)) = false -> 0 <= kills) /\
       (PyStr.has_char "-" (val tds (i_ast cols)) = false -> 0 <= assists) /\
       (PyStr.has_char "-" (val tds (i_hs cols)) = false -> 0 <= hs) /\
       (PyStr.has_char "-" (val tds (i_long cols)) = false -> float_nonneg longest = true)) /\
  (forall (soup : list node) (players : list pyval),
     (forall target, locate (find_tables soup) = Some target ->
                     Forall row_without_minus (body_rows target)) ->
     parse_twire_players soup = Ok players ->
     Forall row_fields_nonneg players).
Proof.
  split; [exact parse_row_fields|].
  intros soup players Hplain H. unfold parse_twire_players in H.
  destruct (locate (find_tables soup)) as [target|].
  - exact (parse_rows_nonneg _ _ [] players (Hplain target eq_refl) (Forall_nil_2 _) H).
  - injection H as <-. constructor.
Qed.

(** An instance of C9: the page [two_tables], whose cells have no minus
    sign. *)
Lemma C9_fields_nonneg_witness :
  exists players,
    parse_twire_players two_tables = Ok players /\ Forall row_fields_nonneg players.
Proof.
  destruct (parse_twire_players two_tables) as [players|e] eqn:E;
    [| vm_compute in E; discriminate E].
  exists players. split; [reflexivity|].
  apply (proj2 C9_fields_nonneg two_tables players); [| exact E].
  intros target Ht. vm_compute in Ht. injection Ht as <-.
  repeat (apply Forall_cons_2 || apply Forall_nil_2); vm_compute; reflexivity.
Defined.

(** C9 as stated fails: the cell "-5" of [negative_cell] is read as -5. *)
Lemma C9_negative_counterexample :
  ~ (forall (soup : list node) (players : list pyval),
       parse_twire_players soup = Ok players -> Forall row_fields_nonneg players) /\
  parse_twire_players negative_cell =
  Ok [ PDict [ ("ign", PStr "bob"); ("kd", PInt 1); ("kills_total", PInt 4);
               ("assists_total", PInt 1); ("headshot_kills", PInt (-5));
               ("longest_kill", PFloat F64.zero) ] ].
Proof.
  assert (parse_twire_players negative_cell =
          Ok [ PDict [ ("ign", PStr "bob"); ("kd", PInt 1); ("kills_total", PInt 4);
                       ("assists_total", PInt 1); ("headshot_kills", PInt (-5));
                       ("longest_kill", PFloat F64.zero) ] ]) as E
    by (vm_compute; reflexivity).
  split; [| exact E].
  intros H. specialize (H _ _ E).
  apply Forall_inv in H. destruct H as (ign & kd & k & a & h & l & Hrow & _ & _ & Hh & _).
  injection Hrow as _ _ _ _ <- _. lia.
Qed.

(** ** Exact operations on binary64 numbers *)

Lemma digits2_bounds (p : positive) :
  2 ^ (Z.pos (digits2_pos p) - 1) <= Z.pos p < 2 ^ Z.pos (digits2_pos p).
Proof.
  induction p as [p IH | p IH |]; cbn [digits2_pos].
  - rewrite Pos2Z.inj_succ.
    replace (Z.succ (Z.pos (digits2_pos p)) - 1) with (Z.succ (Z.pos (digits2_pos p) - 1)) by lia.
    rewrite !Z.pow_succ_r by lia. lia.
  - rewrite Pos2Z.inj_succ.
    replace (Z.succ (Z.pos (digits2_pos p)) - 1) with (Z.succ (Z.pos (digits2_pos p) - 1)) by lia.
    rewrite !Z.pow_succ_r by lia. lia.
  - simpl. lia.
Qed.

Lemma digits2_unique (p : positive) (k : Z) :
  2 ^ (k - 1) <= Z.pos p < 2 ^ k -> Z.pos (digits2_pos p) = k.
Proof.
  intros [Hlo Hhi]. pose proof (digits2_bounds p) as [Dlo Dhi].
  assert (0 < k) as Hk.
  { destruct (Z.lt_ge_cases 0 k) as [|Hneg]; [assumption|].
    destruct (Z.eq_dec k 0) as [-> | Hk0]; [simpl in Hhi; lia|].
    rewrite Z.pow_neg_r in Hhi by lia. lia. }
  destruct (Z.lt_trichotomy (Z.pos (digits2_pos p)) k) as [Hlt | [Heq | Hgt]]; [| exact Heq |].
  - pose proof (Z.pow_le_mono_r 2 (Z.pos (digits2_pos p)) (k - 1)). lia.
  - pose proof (Z.pow_le_mono_r 2 k (Z.pos (digits2_pos p) - 1)). lia.
Qed.

Lemma iter_pos_iter {A : Type} (f : A -> A) (n : positive) (x : A) :
  SpecFloat.iter_pos f n x = Pos.iter f x n.
Proof.
  revert x. induction n as [n IH | n IH |]; intros x;
    cbn [SpecFloat.iter_pos Pos.iter]; [| | reflexivity].
  - rewrite !IH, <- !Pos.iter_swap. reflexivity.
  - rewrite !IH. reflexivity.
Qed.

Lemma iter_xO_value (p k : positive) :
  Z.pos (Pos.iter xO p k) = Z.pos p * 2 ^ Z.pos k.
Proof.
  induction k as [|k IH] using Pos.peano_ind.
  - simpl. lia.
  - rewrite Pos.iter_succ, Pos2Z.inj_succ, Z.pow_succ_r by lia.
    rewrite Pos2Z.inj_xO, IH. lia.
Qed.

Lemma iter_xO_digits (p k : positive) :
  Z.pos (digits2_pos (Pos.iter xO p k)) = Z.pos (digits2_pos p) + Z.pos k.
Proof.
  induction k as [|k IH] using Pos.peano_ind.
  - cbn. lia.
  - rewrite Pos.iter_succ. cbn [digits2_pos]. rewrite Pos2Z.inj_succ, IH. lia.
Qed.

(** [shl_align] to a lower exponent: the mantissa and its number of digits
    afterwards. *)
Lemma shl_align_spec (p : positive) (e e' : Z) :
  e' <= e ->
  exists p',
    shl_align p e e' = (p', e') /\
    Z.pos p' = Z.pos p * 2 ^ (e - e') /\
    Z.pos (digits2_pos p') = Z.pos (digits2_pos p) + (e - e').
Proof.
  intros Hle. unfold shl_align.
  destruct (e' - e) as [|d|d] eqn:E; [| lia |].
  - assert (e' = e) as -> by lia. exists p.
    rewrite Z.sub_diag. simpl. repeat split; lia.
  - exists (Pos.iter xO p d). assert (e - e' = Z.pos d) as -> by lia.
    split; [reflexivity|]. split; [apply iter_xO_value | apply iter_xO_digits].
Qed.

Lemma shr_fexp_canonical (m : positive) (e : Z) :
  fexp F64.prec F64.emax (Z.pos (digits2_pos m) + e) = e ->
  shr_fexp F64.prec F64.emax (Z.pos m) e loc_Exact =
  ({| shr_m := Z.pos m; shr_r := false; shr_s := false |}, e).
Proof.
  intros H. unfold shr_fexp. cbn [Zdigits2 shr_record_of_loc]. rewrite H, Z.sub_diag.
  reflexivity.
Qed.

(** Rounding a number that fits: the result is the number itself, with a
    mantissa aligned on the exponent of its format. *)
Lemma binary_round_exact (s : bool) (p : positive) (e : Z) :
  let d := Z.pos (digits2_pos p) in
  d <= 53 -> -1074 <= e -> d + e <= 1024 ->
  exists p',
    binary_round F64.prec F64.emax s p e = S754_finite s p' (Z.max (d + e - 53) (-1074)) /\
    Z.pos p' = Z.pos p * 2 ^ (e - Z.max (d + e - 53) (-1074)) /\
    Z.pos (digits2_pos p') = d + (e - Z.max (d + e - 53) (-1074)).
Proof.
  intros d Hd He Hde. unfold binary_round.
  assert (fexp F64.prec F64.emax (Z.pos (digits2_pos p) + e) = Z.max (d + e - 53) (-1074))
    as Hfexp by reflexivity.
  rewrite Hfexp. set (e' := Z.max (d + e - 53) (-1074)) in *.
  destruct (shl_align_spec p e e' ltac:(lia)) as (p' & -> & Hval & Hdig).
  exists p'. split; [| split; assumption].
  assert (fexp F64.prec F64.emax (Z.pos (digits2_pos p') + e') = e') as Hcan.
  { rewrite Hdig.
    replace (Z.pos (digits2_pos p) + (e - e') + e') with (Z.pos (digits2_pos p) + e) by lia.
    exact Hfexp. }
  unfold binary_round_aux. rewrite (shr_fexp_canonical p' e' Hcan).
  cbn [shr_m loc_of_shr_record round_nearest_even].
  rewrite (shr_fexp_canonical p' e' Hcan). cbn [shr_m].
  destruct (Z.leb_spec e' (F64.emax - F64.prec)) as [_ | Hbad]; [reflexivity|].
  unfold F64.emax, F64.prec in Hbad. lia.
Qed.

Lemma bounded_facts (m : positive) (e : Z) :
  bounded F64.prec F64.emax m e = true ->
  Z.max (Z.pos (digits2_pos m) + e - 53) (-1074) = e /\ e <= 971.
Proof.
  unfold bounded, canonical_mantissa. intros H.
  apply andb_true_iff in H as [H1 H2].
  apply Z.eqb_eq in H1. apply Z.leb_le in H2.
  split; [exact H1 | exact H2].
Qed.

Lemma iter_double_pos (m k : positive) :
  Pos.iter (Z.mul 2) (Z.pos m) k = Z.pos (Pos.iter xO m k).
Proof.
  induction k as [|k IH] using Pos.peano_ind; [reflexivity|].
  rewrite !Pos.iter_succ, IH. reflexivity.
Qed.

Lemma shiftl_pos_iter (m k : positive) :
  Z.shiftl (Z.pos m) (Z.pos k) = Z.pos (Pos.iter xO m k).
Proof. exact (iter_double_pos m k). Qed.

Lemma iter_shr_1_exact (m k : positive) :
  Pos.iter shr_1 {| shr_m := Z.pos (Pos.iter xO m k); shr_r := false; shr_s := false |} k =
  {| shr_m := Z.pos m; shr_r := false; shr_s := false |}.
Proof.
  induction k as [|k IH] using Pos.peano_ind; [reflexivity|].
  rewrite Pos.iter_succ_r, Pos.iter_succ. exact IH.
Qed.

Lemma normalize_signed (s : bool) (p : positive) (e : Z) :
  binary_normalize F64.prec F64.emax (cond_Zopp s (Z.pos p)) e false =
  binary_round F64.prec F64.emax s p e.
Proof. destruct s; reflexivity. Qed.

Lemma shr_fexp_exact_shift (m k : positive) :
  fexp F64.prec F64.emax (Z.pos (digits2_pos (Pos.iter xO m k)) + 0) = Z.pos k ->
  shr_fexp F64.prec F64.emax (Z.pos (Pos.iter xO m k)) 0 loc_Exact =
  ({| shr_m := Z.pos m; shr_r := false; shr_s := false |}, Z.pos k).
Proof.
  intros H. unfold shr_fexp. cbn [Zdigits2 shr_record_of_loc].
  rewrite H, Z.sub_0_r. unfold shr. rewrite iter_pos_iter, iter_shr_1_exact.
  reflexivity.
Qed.

(** The integer value of a number without fraction converts back to the
    same number. *)
Lemma round_Z_integer (s : bool) (m : positive) (e : Z) :
  bounded F64.prec F64.emax m e = true -> 0 <= e ->
  F64.round_Z (cond_Zopp s (Z.shiftl (Z.pos m) e)) = S754_finite s m e.
Proof.
  intros Hb He. destruct (bounded_facts m e Hb) as [Hcan Hmax].
  assert (Z.pos (digits2_pos m) = 53) as Hd by lia.
  assert (fexp F64.prec F64.emax (Z.pos (digits2_pos m) + e) = e) as Hfexp
    by (unfold fexp, emin, F64.prec, F64.emax; lia).
  unfold F64.round_Z.
  destruct e as [|k|k]; [| | lia].
  - change (Z.shiftl (Z.pos m) 0) with (Z.pos m). rewrite normalize_signed.
    destruct (binary_round_exact s m 0) as (p' & -> & Hval & _); try lia.
    rewrite Hd in *. change (Z.max (53 + 0 - 53) (-1074)) with 0 in *.
    change (2 ^ (0 - 0)) with 1 in Hval. rewrite Z.mul_1_r in Hval.
    injection Hval as ->. reflexivity.
  - rewrite shiftl_pos_iter, normalize_signed. unfold binary_round.
    pose proof (iter_xO_digits m k) as Hdig.
    assert (fexp F64.prec F64.emax (Z.pos (digits2_pos (Pos.iter xO m k)) + 0) = Z.pos k)
      as Hf0 by (unfold fexp, emin, F64.prec, F64.emax; lia).
    rewrite Hf0. change (shl_align (Pos.iter xO m k) 0 (Z.pos k))
      with (Pos.iter xO m k, 0).
    unfold binary_round_aux. rewrite (shr_fexp_exact_shift m k Hf0).
    cbn [shr_m loc_of_shr_record round_nearest_even].
    rewrite (shr_fexp_canonical m (Z.pos k) Hfexp). cbn [shr_m].
    destruct (Z.leb_spec (Z.pos k) (F64.emax - F64.prec)) as [_ | Hbad]; [reflexivity|].
    unfold F64.emax, F64.prec in Hbad. lia.
Qed.

Lemma digits2_le (p : positive) (k : Z) :
  0 <= k -> Z.pos p < 2 ^ k -> Z.pos (digits2_pos p) <= k.
Proof.
  intros Hk Hp. pose proof (digits2_bounds p) as [Hlo _].
  destruct (Z.le_gt_cases (Z.pos (digits2_pos p)) k) as [|Hgt]; [assumption|].
  pose proof (Z.pow_le_mono_r 2 k (Z.pos (digits2_pos p) - 1)). lia.
Qed.

Lemma sub_same_exponent (s : bool) (m1 m2 : positive) (e : Z) :
  F64.sub (S754_finite s m1 e) (S754_finite s m2 e) =
  binary_normalize F64.prec F64.emax (cond_Zopp s (Z.pos m1 - Z.pos m2)) e false.
Proof.
  unfold F64.sub, SFsub. rewrite Z.min_id.
  unfold shl_align. rewrite Z.sub_diag. cbn [fst].
  f_equal. destruct s; cbn [cond_Zopp]; lia.
Qed.

(** [n - float(int(n))] for a finite number [n]: the subtraction is exact.
    The result is zero when [n] is an integer, and else a number of the
    sign of [n] whose exponent is that of the fraction of [n]. *)
Lemma sub_trunc_exact (s : bool) (m : positive) (e : Z) :
  bounded F64.prec F64.emax m e = true ->
  let q := Z.shiftl (Z.pos m) e in
  exists fi,
    F64.of_int (cond_Zopp s q) = Ok fi /\
    ((frac_num m e = 0 /\ F64.sub (S754_finite s m e) fi = S754_zero false) \/
     (exists prr m',
        frac_num m e = Z.pos prr /\ Z.pos (digits2_pos prr) <= - e /\
        F64.sub (S754_finite s m e) fi =
        S754_finite s m' (Z.max (Z.pos (digits2_pos prr) + e - 53) (-1074)) /\
        Z.pos (digits2_pos m') =
        Z.pos (digits2_pos prr) + (e - Z.max (Z.pos (digits2_pos prr) + e - 53) (-1074)))).
Proof.
  intros Hb q. destruct (bounded_facts m e Hb) as [Hcan Hmax].
  pose proof (digits2_bounds m) as [Dlo Dhi].
  set (d := Z.pos (digits2_pos m)) in *.
  assert (d <= 53) as Hd by lia.
  unfold frac_num. destruct (Z.ltb_spec e 0) as [Hneg | Hpos].
  2:{ exists (S754_finite s m e). subst q.
      unfold F64.of_int. rewrite (round_Z_integer s m e Hb Hpos). cbn [F64.is_inf].
      split; [reflexivity|]. left. split; [reflexivity|].
      rewrite sub_same_exponent, Z.sub_diag. destruct s; reflexivity. }
  assert (q = Z.pos m / 2 ^ (- e)) as Hq by (apply Z.shiftl_div_pow2; lia).
  set (P := 2 ^ (- e)) in *.
  assert (0 < P) as HP by (apply Z.pow_pos_nonneg; lia).
  pose proof (Z.div_mod (Z.pos m) P ltac:(lia)) as Hdm.
  pose proof (Z.mod_pos_bound (Z.pos m) P HP) as Hrr.
  pose proof (Z.div_pos (Z.pos m) P ltac:(lia) HP) as Hq0.
  rewrite <- Hq in Hdm, Hq0. set (rr := Z.pos m mod P) in *.
  clearbody q. destruct q as [|pq|pq]; [| | lia].
  - (* the integer part is zero *)
    exists (S754_zero false). split; [destruct s; reflexivity|].
    right. exists m, m. assert (rr = Z.pos m) as -> by lia.
    split; [reflexivity|]. split; [apply digits2_le; lia|].
    fold d. rewrite Hcan. split; [reflexivity | lia].
  - (* the integer part is not zero *)
    assert (- e < d) as Hed.
    { apply (Z.pow_lt_mono_r_iff 2); [lia | lia |]. fold P. nia. }
    assert (d = 53) as Hd53 by lia.
    assert (2 ^ 53 = 2 ^ (53 + e) * P) as H53
      by (unfold P; rewrite <- Z.pow_add_r by lia; f_equal; lia).
    assert (2 ^ 52 = 2 ^ (52 + e) * P) as H52
      by (unfold P; rewrite <- Z.pow_add_r by lia; f_equal; lia).
    rewrite Hd53 in Dlo, Dhi. change (53 - 1) with 52 in Dlo.
    assert (0 < 2 ^ (53 + e)) as HA by (apply Z.pow_pos_nonneg; lia).
    assert (0 < 2 ^ (52 + e)) as HB by (apply Z.pow_pos_nonneg; lia).
    assert (Z.pos (digits2_pos pq) = 53 + e) as Hdq.
    { apply digits2_unique. replace (53 + e - 1) with (52 + e) by lia. split; nia. }
    destruct (binary_round_exact s pq 0) as (p' & Hround & Hval & _); try lia.
    rewrite Hdq in Hround, Hval.
    replace (Z.max (53 + e + 0 - 53) (-1074)) with e in Hround, Hval by lia.
    replace (0 - e) with (- e) in Hval by lia. fold P in Hval.
    exists (S754_finite s p' e). split.
    { unfold F64.of_int, F64.round_Z. rewrite normalize_signed, Hround. reflexivity. }
    rewrite sub_same_exponent.
    assert (Z.pos m - Z.pos p' = rr) as -> by lia.
    destruct rr as [|prr|prr] eqn:Err; [| | lia].
    + left. split; [reflexivity | destruct s; reflexivity].
    + right. rewrite normalize_signed.
      assert (Z.pos (digits2_pos prr) <= - e) as Hdr by (apply digits2_le; fold P; lia).
      destruct (binary_round_exact s prr e) as (m' & Hr & _ & Hdm'); try lia.
      exists prr, m'. split; [reflexivity|]. split; [exact Hdr|].
      split; [exact Hr | exact Hdm'].
Qed.

(** ** The rounding of a finite ratio *)

Lemma lit_values :
  F64.lit_0_4 = S754_finite false 7205759403792794 (-54) /\
  F64.lit_0_5 = S754_finite false 4503599627370496 (-53) /\
  F64.round_Z CACHE_TTL_SEC = S754_finite false 5937362789990400 (-38).
Proof. repeat split; vm_compute; reflexivity. Qed.

(** The two tests of [kd_round_to_int] on a fraction [m' * 2^e'] below 1:
    only an exponent of -53 puts it at 0.5 or above. *)
Lemma frac_tests (m' : positive) (e' : Z) :
  e' <= -53 -> (e' = -53 -> 2 ^ 52 <= Z.pos m') ->
  (if F64.leb (S754_finite false m' e') F64.lit_0_4 then false
   else F64.leb F64.lit_0_5 (S754_finite false m' e')) = (e' =? -53).
Proof.
  intros He Hm. destruct lit_values as (-> & -> & _).
  unfold F64.leb, SFleb, SFcompare.
  destruct (Z.compare_spec e' (-54)) as [-> | Hlt | Hgt].
  - destruct (Pos.compare_cont Eq m' 7205759403792794); reflexivity.
  - destruct (Z.eqb_spec e' (-53)); [lia | reflexivity].
  - assert (e' = -53) as -> by lia. cbn [Z.compare Z.eqb Pos.eqb].
    specialize (Hm eq_refl).
    destruct (Pos.compare_cont Eq 4503599627370496 m') eqn:E; try reflexivity.
    change (Pos.compare 4503599627370496 m' = Gt) in E.
    apply Pos.compare_gt_iff, Pos2Z.pos_lt_pos in E.
    change (2 ^ 52) with (Z.pos 4503599627370496) in Hm.
    exact (False_ind _ (Z.lt_irrefl _ (Z.le_lt_trans _ _ _ Hm E))).
Qed.

(** On a finite binary64 number, [kd_round_to_int] rounds to the nearest
    integer, a half going away from zero. *)
Lemma kd_round_finite (v : pyval) (s : bool) (m : positive) (e : Z) :
  Py.float v = Ok (S754_finite s m e) ->
  bounded F64.prec F64.emax m e = true ->
  kd_round_to_int v = Ok (round_half_away s m e).
Proof.
  intros Hv Hb. unfold kd_round_to_int, round_half_away. rewrite Hv.
  cbn [F64.to_int mbind result_bind].
  destruct (sub_trunc_exact s m e Hb) as (fi & -> & Hsub).
  cbn [mbind result_bind].
  assert (F64.leb F64.zero (S754_finite s m e) = negb s) as -> by (destruct s; reflexivity).
  destruct Hsub as [[Hrr ->] | (prr & m' & Hrr & Hdr & -> & Hdm')].
  - rewrite Hrr. cbn [F64.abs SFabs].
    change (F64.leb (S754_zero false) F64.lit_0_4) with true. cbv iota.
    destruct (Z.ltb_spec e 0) as [Hneg | _]; [| reflexivity].
    pose proof (Z.pow_pos_nonneg 2 (- e) ltac:(lia) ltac:(lia)).
    destruct (Z.leb_spec (2 ^ (- e)) (2 * 0)); [lia | reflexivity].
  - rewrite Hrr. cbn [F64.abs SFabs].
    pose proof (digits2_bounds prr) as [Dlo Dhi].
    pose proof (digits2_bounds m') as [Mlo _].
    set (dr := Z.pos (digits2_pos prr)) in *.
    set (e' := Z.max (dr + e - 53) (-1074)) in *.
    assert (e < 0) as Hneg by lia.
    pose proof (frac_tests m' e' ltac:(lia)) as Htests.
    assert (e' = -53 -> 2 ^ 52 <= Z.pos m') as Hnorm.
    { intros He'. rewrite Hdm' in Mlo.
      replace (dr + (e - e') - 1) with 52 in Mlo by lia. exact Mlo. }
    specialize (Htests Hnorm).
    destruct (Z.ltb_spec e 0) as [_ | ?]; [| lia]. cbn [andb].
    assert ((e' =? -53) = (2 ^ (- e) <=? 2 * Z.pos prr)) as Hiff.
    { destruct (Z.eqb_spec e' (-53)) as [He' | He'];
        destruct (Z.leb_spec (2 ^ (- e)) (2 * Z.pos prr)) as [Hge | Hlt]; try reflexivity.
      - assert (dr = - e) as Hdre by lia. rewrite Hdre in Dlo.
        replace (- e) with (Z.succ (- e - 1)) in Hlt by lia.
        rewrite Z.pow_succ_r in Hlt by lia. lia.
      - assert (dr < - e) as Hdre by lia.
        pose proof (Z.pow_le_mono_r 2 dr (- e - 1) ltac:(lia) ltac:(lia)).
        replace (- e) with (Z.succ (- e - 1)) in Hge by lia.
        rewrite Z.pow_succ_r in Hge by lia. lia. }
    rewrite <- Hiff.
    destruct (F64.leb (S754_finite false m' e') F64.lit_0_4).
    + rewrite <- Htests. reflexivity.
    + rewrite Htests. destruct (e' =? -53); [| reflexivity].
      destruct s; cbn [negb cond_Zopp]; f_equal; lia.
Qed.

Lemma kd_round_zero (v : pyval) (s : bool) :
  Py.float v = Ok (S754_zero s) -> kd_round_to_int v = Ok 0.
Proof. intros Hv. unfold kd_round_to_int. rewrite Hv. destruct s; reflexivity. Qed.

(** The rule of the docstring on a finite number: with [i] the integer part
    and [frac = r / 2^(-e)] the fraction, a fraction of at most 0.4 gives
    [i], a fraction of at least 0.5 gives [i] moved by one away from zero,
    and a fraction between them gives [i]. *)
Lemma kd_round_rule (v : pyval) (s : bool) (m : positive) (e : Z) :
  Py.float v = Ok (S754_finite s m e) ->
  bounded F64.prec F64.emax m e = true ->
  let i := cond_Zopp s (Z.shiftl (Z.pos m) e) in
  let r := frac_num m e in
  let den := 2 ^ (- e) in
  (0 <= e -> kd_round_to_int v = Ok i) /\
  (e < 0 -> 10 * r <= 4 * den -> kd_round_to_int v = Ok i) /\
  (e < 0 -> den <= 2 * r -> kd_round_to_int v = Ok (i + (if s then -1 else 1))) /\
  (e < 0 -> 4 * den < 10 * r -> 2 * r < den -> kd_round_to_int v = Ok i).
Proof.
  intros Hv Hb. cbv zeta. rewrite (kd_round_finite v s m e Hv Hb).
  unfold round_half_away.
  assert (0 <= frac_num m e) as Hr.
  { unfold frac_num. destruct (Z.ltb_spec e 0); [| apply Z.le_refl].
    apply Z.mod_pos_bound, Z.pow_pos_nonneg; lia. }
  assert (e < 0 -> 0 < 2 ^ (- e)) as Hden
    by (intros He; apply Z.pow_pos_nonneg; lia).
  generalize dependent (frac_num m e). intros r Hr.
  generalize (Z.shiftl (Z.pos m) e). intros q.
  generalize dependent (2 ^ (- e)). intros den Hden.
  repeat split; intros He.
  - destruct (Z.ltb_spec e 0); [exfalso; lia | reflexivity].
  - intros H. destruct (Z.ltb_spec e 0); [| exfalso; lia].
    destruct (Z.leb_spec den (2 * r)); [exfalso; lia | reflexivity].
  - intros H. destruct (Z.ltb_spec e 0); [| exfalso; lia].
    destruct (Z.leb_spec den (2 * r)); [| exfalso; lia].
    cbn [andb]. destruct s; cbn [cond_Zopp]; f_equal; lia.
  - intros _ H. destruct (Z.ltb_spec e 0); [| exfalso; lia].
    destruct (Z.leb_spec den (2 * r)); [exfalso; lia | reflexivity].
Qed.

(** C1 on the code. For an input that [float] turns into a finite number,
    with [i] its integer part and [frac = r / den] its fraction, the result
    is [i] when [frac <= 0.4], [i] moved by one away from zero when
    [frac >= 0.5], and [i] in between; 2.39, 2.45, 2.5 and -1.5 give 2, 2, 3
    and -2. For an input that [float] rejects the result is 0. But [float]
    accepts the texts "nan" and "inf": [int(n)] then raises outside of the
    [try] block, and the function returns nothing. *)
Theorem C1_kd_round_cases :
  (forall (v : pyval) (s : bool) (m : positive) (e : Z),
     Py.float v = Ok (S754_finite s m e) ->
     bounded F64.prec F64.emax m e = true ->
     let i := cond_Zopp s (Z.shiftl (Z.pos m) e) in
     let r := frac_num m e in
     let den := 2 ^ (- e) in
     (0 <= e -> kd_round_to_int v = Ok i) /\
     (e < 0 -> 10 * r <= 4 * den -> kd_round_to_int v = Ok i) /\
     (e < 0 -> den <= 2 * r -> kd_round_to_int v = Ok (i + (if s then -1 else 1))) /\
     (e < 0 -> 4 * den < 10 * r -> 2 * r < den -> kd_round_to_int v = Ok i)) /\
  (forall (v : pyval) (s : bool),
     Py.float v = Ok (S754_zero s) -> kd_round_to_int v = Ok 0) /\
  (forall (v : pyval) (e : exn),
     Py.float v = Raise e -> kd_round_to_int v = Ok 0) /\
  (kd_round_to_int (PStr "2.39") = Ok 2 /\
   kd_round_to_int (PStr "2.45") = Ok 2 /\
   kd_round_to_int (PStr "2.5") = Ok 3 /\
   kd_round_to_int (PStr "-1.5") = Ok (-2)) /\
  (forall v : pyval,
     Py.float v = Ok S754_nan -> kd_round_to_int v = Raise ValueError) /\
  (forall (v : pyval) (s : bool),
     Py.float v = Ok (S754_infinity s) -> kd_round_to_int v = Raise OverflowError) /\
  kd_round_to_int (PStr "nan") = Raise ValueError /\
  kd_round_to_int (PStr "inf") = Raise OverflowError.
Proof.
  split; [exact kd_round_rule|].
  split; [exact kd_round_zero|].
  split; [exact kd_round_not_a_float|].
  split; [exact kd_round_examples|].
  split; [exact kd_round_nan|].
  split; [exact kd_round_infinity|].
  split; vm_compute; reflexivity.
Qed.

(** Instances of C1: the text "2.45", whose fraction lies between 0.4 and
    0.5, the text "n/a", which is not a number, and the text "NaN". *)
Lemma C1_kd_round_cases_witness :
  kd_round_to_int (PStr "2.45") = Ok 2 /\
  kd_round_to_int (PStr "n/a") = Ok 0 /\
  kd_round_to_int (PStr "NaN") = Raise ValueError.
Proof.
  destruct C1_kd_round_cases as (Hfinite & _ & Hreject & _ & Hnan & _).
  split; [| split].
  - destruct (Hfinite (PStr "2.45") false 5516909543528858%positive (-51))
      as (_ & _ & _ & Hdead); [vm_compute; reflexivity | vm_compute; reflexivity |].
    apply Hdead; vm_compute; reflexivity.
  - apply (Hreject (PStr "n/a") ValueError). vm_compute. reflexivity.
  - apply (Hnan (PStr "NaN")). vm_compute. reflexivity.
Defined.

(** ** The cache *)

(** Read at the very reading of the clock at which it was written, an entry
    is within its time to live. *)
Lemma fresh_immediate (t : F64.float) (ts : Z) :
  clock_reading t -> F64.to_int t = Ok ts -> fresh t (PInt ts) = true.
Proof.
  intros [Hfin Hvalid] Hts. destruct t as [s | s | | s m e]; try discriminate Hfin.
  - injection Hts as <-. destruct s; vm_compute; reflexivity.
  - cbn [F64.to_int] in Hts. injection Hts as <-.
    cbn [valid_binary] in Hvalid.
    destruct (sub_trunc_exact s m e Hvalid) as (fi & Hfi & Hsub).
    unfold fresh, float_minus. rewrite Hfi. cbn [mbind result_bind].
    destruct lit_values as (_ & _ & ->).
    destruct Hsub as [[_ ->] | (prr & m' & _ & Hdr & -> & _)]; [reflexivity|].
    unfold F64.leb, SFleb, SFcompare. destruct s; [reflexivity|].
    destruct (Z.compare_spec (Z.max (Z.pos (digits2_pos prr) + e - 53) (-1074)) (-38))
      as [Heq | Hlt | Hgt]; [exfalso; lia | reflexivity | exfalso; lia].
Qed.

(** ** The age of an entry, in exact arithmetic *)

Lemma shr_exact (p k j : positive) :
  (j <= k)%positive ->
  exists p2,
    Pos.iter shr_1 {| shr_m := Z.pos (Pos.iter xO p k); shr_r := false; shr_s := false |} j =
    {| shr_m := Z.pos p2; shr_r := false; shr_s := false |} /\
    Z.pos p2 = Z.pos p * 2 ^ (Z.pos k - Z.pos j) /\
    Z.pos (digits2_pos p2) = Z.pos (digits2_pos p) + (Z.pos k - Z.pos j).
Proof.
  intros Hjk. destruct (Pos.eq_dec j k) as [-> | Hne].
  - exists p. rewrite iter_shr_1_exact, Z.sub_diag. repeat split; simpl; lia.
  - assert (k = j + (k - j))%positive as Hk by lia.
    exists (Pos.iter xO p (k - j)).
    rewrite Hk at 1. rewrite Pos.iter_add, iter_shr_1_exact.
    split; [reflexivity|].
    rewrite iter_xO_value, iter_xO_digits.
    replace (Z.pos (k - j)) with (Z.pos k - Z.pos j) by lia.
    split; reflexivity.
Qed.

(** Rounding [p * 2^k] at exponent [e] when [p] fits: the result is the
    number itself, as for [p] at exponent [e + k]. *)
Lemma binary_round_exact_shifted (s : bool) (p k : positive) (e : Z) :
  let d := Z.pos (digits2_pos p) in
  let E := Z.max (d + (e + Z.pos k) - 53) (-1074) in
  d <= 53 -> -1074 <= e + Z.pos k -> d + (e + Z.pos k) <= 1024 ->
  exists p',
    binary_round F64.prec F64.emax s (Pos.iter xO p k) e = S754_finite s p' E /\
    Z.pos p' = Z.pos p * 2 ^ (e + Z.pos k - E) /\
    Z.pos (digits2_pos p') = d + (e + Z.pos k - E).
Proof.
  intros d E Hd He Hde.
  pose proof (iter_xO_digits p k) as HdP. pose proof (iter_xO_value p k) as HvP.
  fold d in HdP.
  destruct (Z.le_gt_cases E e) as [Hle | Hgt].
  - pose proof (binary_round_exact s (Pos.iter xO p k) e) as H.
    cbv zeta in H. rewrite HdP in H.
    destruct H as (p' & Hr & Hv & Hdig); [lia | lia | lia |].
    replace (Z.max (d + Z.pos k + e - 53) (-1074)) with E in Hr, Hv, Hdig by lia.
    exists p'. split; [exact Hr|]. split; [| lia].
    rewrite Hv, HvP, <- Z.mul_assoc, <- Z.pow_add_r by lia. f_equal. f_equal. lia.
  - assert (fexp F64.prec F64.emax (Z.pos (digits2_pos (Pos.iter xO p k)) + e) = E) as Hfexp
      by (rewrite HdP; unfold fexp, emin, F64.prec, F64.emax; lia).
    destruct (E - e) as [|j|j] eqn:Ej; [lia | | lia].
    assert (j <= k)%positive as Hjk by lia.
    destruct (shr_exact p k j Hjk) as (p2 & Hshr & Hv2 & Hd2).
    exists p2. replace (e + Z.pos k - E) with (Z.pos k - Z.pos j) by lia.
    split; [| split; [exact Hv2 | exact Hd2]].
    unfold binary_round. rewrite Hfexp.
    assert (shl_align (Pos.iter xO p k) e E = (Pos.iter xO p k, e)) as ->
      by (unfold shl_align; rewrite Ej; reflexivity).
    unfold binary_round_aux.
    assert (shr_fexp F64.prec F64.emax (Z.pos (Pos.iter xO p k)) e loc_Exact =
            ({| shr_m := Z.pos p2; shr_r := false; shr_s := false |}, E)) as ->.
    { unfold shr_fexp. cbn [Zdigits2 shr_record_of_loc]. rewrite Hfexp, Ej.
      unfold shr. rewrite iter_pos_iter, Hshr. f_equal. lia. }
    cbn [shr_m loc_of_shr_record round_nearest_even].
    assert (fexp F64.prec F64.emax (Z.pos (digits2_pos p2) + E) = E) as Hcan.
    { rewrite Hd2. fold d.
      replace (d + (Z.pos k - Z.pos j) + E) with (d + Z.pos k + e) by lia.
      rewrite <- HdP. exact Hfexp. }
    rewrite (shr_fexp_canonical p2 E Hcan). cbn [shr_m].
    destruct (Z.leb_spec E (F64.emax - F64.prec)) as [_ | Hbad]; [reflexivity|].
    unfold F64.emax, F64.prec in Hbad. exfalso. lia.
Qed.

Lemma binary_normalize_exact (p : positive) (k e D : Z) :
  let d := Z.pos (digits2_pos p) in
  let E := Z.max (d + (e + k) - 53) (-1074) in
  0 <= k -> D = Z.pos p * 2 ^ k ->
  d <= 53 -> -1074 <= e + k -> d + (e + k) <= 1024 ->
  exists p',
    binary_normalize F64.prec F64.emax D e false = S754_finite false p' E /\
    Z.pos p' = Z.pos p * 2 ^ (e + k - E) /\
    Z.pos (digits2_pos p') = d + (e + k - E).
Proof.
  intros d E Hk HD Hd He Hde. destruct k as [|k|k]; [| | lia].
  - rewrite Z.mul_1_r in HD. subst D. cbn [binary_normalize].
    pose proof (binary_round_exact false p e) as H. cbv zeta in H. fold d in H.
    subst E. rewrite Z.add_0_r in *. apply H; lia.
  - rewrite <- iter_xO_value in HD. subst D. cbn [binary_normalize].
    apply (binary_round_exact_shifted false p k e); assumption.
Qed.

(** The test against the time to live on a number in its format. *)
Lemma leb_ttl (p : positive) (E : Z) :
  Z.max (Z.pos (digits2_pos p) + E - 53) (-1074) = E -> E <= 0 ->
  F64.leb (S754_finite false p E) (F64.round_Z CACHE_TTL_SEC) =
  (Z.pos p <=? CACHE_TTL_SEC * 2 ^ (- E)).
Proof.
  intros Hcan HE. destruct lit_values as (_ & _ & ->).
  pose proof (digits2_bounds p) as [Dlo Dhi].
  set (d := Z.pos (digits2_pos p)) in *.
  assert (d <= 53) as Hd by lia.
  pose proof (Z.pow_le_mono_r 2 d 53 ltac:(lia) Hd) as H53.
  unfold F64.leb, SFleb, SFcompare, CACHE_TTL_SEC.
  destruct (Z.compare_spec E (-38)) as [-> | Hlt | Hgt].
  - change (6 * 60 * 60 * 2 ^ (- -38)) with (Z.pos 5937362789990400).
    unfold Z.leb. cbn [Z.compare]. unfold Pos.compare.
    destruct (Pos.compare_cont Eq p 5937362789990400); reflexivity.
  - pose proof (Z.pow_le_mono_r 2 39 (- E) ltac:(lia) ltac:(lia)) as Hpow.
    change (2 ^ 39) with 549755813888 in Hpow.
    change (2 ^ 53) with 9007199254740992 in H53.
    destruct (Z.leb_spec (Z.pos p) (6 * 60 * 60 * 2 ^ (- E))); [reflexivity | exfalso; lia].
  - assert (d = 53) as Hd53 by lia. rewrite Hd53 in Dlo. change (2 ^ (53 - 1)) with 4503599627370496 in Dlo.
    pose proof (Z.pow_le_mono_r 2 (- E) 37 ltac:(lia) ltac:(lia)) as Hpow.
    change (2 ^ 37) with 137438953472 in Hpow.
    pose proof (Z.pow_pos_nonneg 2 (- E) ltac:(lia) ltac:(lia)).
    destruct (Z.leb_spec (Z.pos p) (6 * 60 * 60 * 2 ^ (- E))); [exfalso; lia | reflexivity].
Qed.

(** The test of [load_cache] in exact arithmetic. For a reading of the
    clock [now = m * 2^e] with [e <= 0] and a stored timestamp
    [0 <= ts <= now], the subtraction is exact and the entry is fresh if
    and only if [now - ts <= CACHE_TTL_SEC]; both sides of the comparison
    are given multiplied by [2^(-e)]. *)
Lemma fresh_exact (m : positive) (e ts : Z) :
  bounded F64.prec F64.emax m e = true -> e <= 0 ->
  0 <= ts -> ts * 2 ^ (- e) <= Z.pos m ->
  fresh (S754_finite false m e) (PInt ts) =
  (Z.pos m - ts * 2 ^ (- e) <=? CACHE_TTL_SEC * 2 ^ (- e)).
Proof.
  intros Hb He Hts Hle. destruct (bounded_facts m e Hb) as [Hcan Hmax].
  pose proof (digits2_bounds m) as [_ Dhi].
  assert (Z.pos (digits2_pos m) <= 53) as Hd by lia.
  pose proof (Z.pow_le_mono_r 2 _ 53 ltac:(lia) Hd) as H53.
  pose proof (Z.pow_pos_nonneg 2 (- e) ltac:(lia) ltac:(lia)) as HP.
  unfold fresh, float_minus.
  destruct ts as [|pT|pT]; [| | lia].
  - change (F64.of_int 0) with (@Ok F64.float (S754_zero false)).
    cbn [mbind result_bind F64.sub SFsub].
    rewrite (leb_ttl m e Hcan He). rewrite Z.mul_0_l, Z.sub_0_r. reflexivity.
  - assert (Z.pos pT < 2 ^ 53) as HT by nia.
    pose proof (digits2_le pT 53 ltac:(lia) HT) as HdT.
    destruct (binary_round_exact false pT 0) as (pT' & HrT & HvT & _); try lia.
    set (eT := Z.max (Z.pos (digits2_pos pT) + 0 - 53) (-1074)) in *.
    assert (F64.of_int (Z.pos pT) = Ok (S754_finite false pT' eT)) as ->
      by (unfold F64.of_int, F64.round_Z; cbn [binary_normalize]; rewrite HrT; reflexivity).
    cbn [mbind result_bind]. unfold F64.sub, SFsub.
    set (ez := Z.min e eT).
    destruct (shl_align_spec m e ez ltac:(lia)) as (m1 & -> & Hv1 & _).
    destruct (shl_align_spec pT' eT ez ltac:(lia)) as (m2 & -> & Hv2 & _).
    cbn [fst cond_Zopp].
    assert (0 <= e - ez) as Hk by lia.
    assert (Z.pos m2 = Z.pos pT * 2 ^ (- e) * 2 ^ (e - ez)) as Hv2'.
    { rewrite Hv2, HvT, <- !Z.mul_assoc, <- !Z.pow_add_r by lia.
      f_equal. f_equal. lia. }
    set (dlt := Z.pos m - Z.pos pT * 2 ^ (- e)) in *.
    assert (Z.pos m1 - Z.pos m2 = dlt * 2 ^ (e - ez)) as -> by (unfold dlt; lia).
    assert (0 <= dlt) as Hdlt by (unfold dlt; lia).
    destruct dlt as [|pd|pd] eqn:Ed; [| | lia].
    + rewrite Z.mul_0_l. cbn [binary_normalize].
      destruct (Z.leb_spec 0 (CACHE_TTL_SEC * 2 ^ (- e))) as [_ | Hbad]; [reflexivity|].
      unfold CACHE_TTL_SEC in Hbad. exfalso. lia.
    + assert (Z.pos pd < 2 ^ 53) as Hpd by lia.
      pose proof (digits2_le pd 53 ltac:(lia) Hpd) as Hdd.
      pose proof (binary_normalize_exact pd (e - ez) ez (Z.pos pd * 2 ^ (e - ez))) as H.
      cbv zeta in H. replace (ez + (e - ez)) with e in H by lia.
      destruct H as (p' & -> & Hv' & Hd'); [lia | reflexivity | lia | lia | lia |].
      set (E := Z.max (Z.pos (digits2_pos pd) + e - 53) (-1074)) in *.
      rewrite leb_ttl; [| rewrite Hd'; lia | lia].
      rewrite Hv'.
      assert (2 ^ (- E) = 2 ^ (- e) * 2 ^ (e - E)) as ->
        by (rewrite <- Z.pow_add_r by lia; f_equal; lia).
      pose proof (Z.pow_pos_nonneg 2 (e - E) ltac:(lia) ltac:(lia)) as Hc.
      destruct (Z.leb_spec (Z.pos pd * 2 ^ (e - E)) (CACHE_TTL_SEC * (2 ^ (- e) * 2 ^ (e - E))));
        destruct (Z.leb_spec (Z.pos pd) (CACHE_TTL_SEC * 2 ^ (- e)));
        try reflexivity; exfalso; nia.
Qed.

Section CacheFacts.

Context {text : Type}.
Variable json_dumps : pyval -> text.
Variable json_loads : text -> result pyval.

(** What the standard codec guarantees: decoding an encoded value gives the
    value back. *)
Hypothesis loads_dumps : forall v : pyval, json_loads (json_dumps v) = Ok v.

Lemma load_after_save (fs fs' : gmap string (file text)) (t1 t2 : F64.float)
    (tid group round_ : string) (rows : list pyval) (ts : Z) :
  save_cache json_dumps fs t1 tid group round_ (PList rows) = Ok fs' ->
  F64.to_int t1 = Ok ts ->
  load_cache json_loads fs' t2 tid group round_ =
  if fresh t2 (PInt ts) then PList rows else PNone.
Proof.
  unfold save_cache. intros Hsave Hts. rewrite Hts in Hsave.
  cbn [mbind result_bind] in Hsave. injection Hsave as <-.
  unfold load_cache. rewrite lookup_insert_eq.
  unfold load_entry, fresh. cbn [read_text mbind result_bind].
  rewrite loads_dumps. cbn [mbind result_bind Py.get].
  change (Py.dict_get [("_ts", PInt ts); ("data", PList rows)] "_ts" (PInt 0))
    with (PInt ts).
  destruct (float_minus t2 (PInt ts)) as [age|e]; [| reflexivity].
  cbn [mbind result_bind].
  destruct (F64.leb age (F64.round_Z CACHE_TTL_SEC)); reflexivity.
Qed.

Lemma load_stored (fs : gmap string (file text)) (now : F64.float)
    (tid group round_ : string) (txt : text) (d : list (string * pyval)) :
  fs !! cache_path tid group round_ = Some (Readable txt) ->
  json_loads txt = Ok (PDict d) ->
  load_cache json_loads fs now tid group round_ =
  if fresh now (Py.dict_get d "_ts" (PInt 0)) then Py.dict_get d "data" PNone else PNone.
Proof.
  intros Hfile Hjson. unfold load_cache. rewrite Hfile.
  unfold load_entry, fresh. cbn [read_text mbind result_bind].
  rewrite Hjson. cbn [mbind result_bind Py.get].
  destruct (float_minus now (Py.dict_get d "_ts" (PInt 0))) as [age|e]; [| reflexivity].
  cbn [mbind result_bind].
  destruct (F64.leb age (F64.round_Z CACHE_TTL_SEC)); reflexivity.
Qed.

(** C2. With a codec that decodes what it encodes: a row list saved for a
    triple and loaded for the same triple is returned as it was saved,
    provided the stored timestamp passes the test
    [now - timestamp <= CACHE_TTL_SEC] at the time of the load, where the
    time to live is 21600 seconds. The test passes when the load happens at
    the reading of the clock of the save; for a later reading
    [now = m * 2^e] it is the comparison of [now - timestamp] with 21600 in
    exact arithmetic, and the load is a miss when it fails. A stored entry
    whose timestamp fails the test is a miss, and so are a file that cannot
    be read, a text that is not JSON, a JSON value that is not an object, a
    timestamp that is not a number, and a missing file. *)
Theorem C2_cache_roundtrip :
  CACHE_TTL_SEC = 21600 /\
  (forall (fs fs' : gmap string (file text)) (t1 : F64.float) (m : positive) (e : Z)
          (tid group round_ : string) (rows : list pyval) (ts : Z),
     save_cache json_dumps fs t1 tid group round_ (PList rows) = Ok fs' ->
     F64.to_int t1 = Ok ts ->
     bounded F64.prec F64.emax m e = true -> e <= 0 ->
     0 <= ts -> ts * 2 ^ (- e) <= Z.pos m ->
     load_cache json_loads fs' (S754_finite false m e) tid group round_ =
     if Z.pos m - ts * 2 ^ (- e) <=? CACHE_TTL_SEC * 2 ^ (- e)
     then PList rows else PNone) /\
  (forall (fs fs' : gmap string (file text)) (t1 t2 : F64.float)
          (tid group round_ : string) (rows : list pyval) (ts : Z),
     save_cache json_dumps fs t1 tid group round_ (PList rows) = Ok fs' ->
     F64.to_int t1 = Ok ts ->
     fresh t2 (PInt ts) = true ->
     load_cache json_loads fs' t2 tid group round_ = PList rows) /\
  (forall (fs : gmap string (file text)) (t : F64.float)
          (tid group round_ : string) (rows : list pyval),
     clock_reading t ->
     exists fs',
       save_cache json_dumps fs t tid group round_ (PList rows) = Ok fs' /\
       load_cache json_loads fs' t tid group round_ = PList rows) /\
  (forall (fs : gmap string (file text)) (now : F64.float)
          (tid group round_ : string) (txt : text) (d : list (string * pyval)),
     fs !! cache_path tid group round_ = Some (Readable txt) ->
     json_loads txt = Ok (PDict d) ->
     fresh now (Py.dict_get d "_ts" (PInt 0)) = false ->
     load_cache json_loads fs now tid group round_ = PNone) /\
  (forall (fs : gmap string (file text)) (now : F64.float) (tid group round_ : string),
     fs !! cache_path tid group round_ = Some Unreadable ->
     load_cache json_loads fs now tid group round_ = PNone) /\
  (forall (fs : gmap string (file text)) (now : F64.float)
          (tid group round_ : string) (txt : text) (e : exn),
     fs !! cache_path tid group round_ = Some (Readable txt) ->
     json_loads txt = Raise e ->
     load_cache json_loads fs now tid group round_ = PNone) /\
  (forall (fs : gmap string (file text)) (now : F64.float)
          (tid group round_ : string) (txt : text) (v : pyval),
     fs !! cache_path tid group round_ = Some (Readable txt) ->
     json_loads txt = Ok v ->
     (forall d, v <> PDict d) ->
     load_cache json_loads fs now tid group round_ = PNone) /\
  (forall (now : F64.float) (ts : pyval),
     match ts with PBool _ | PInt _ | PFloat _ => False | _ => True end ->
     fresh now ts = false) /\
  (forall (fs : gmap string (file text)) (now : F64.float) (tid group round_ : string),
     fs !! cache_path tid group round_ = None ->
     load_cache json_loads fs now tid group round_ = PNone).
Proof.
  split; [reflexivity|].
  split; [| split; [| split; [| split; [| split; [| split; [| split; [| split]]]]]]].
  - intros fs fs' t1 m e tid group round_ rows ts Hsave Hts Hb He Hts0 Hle.
    rewrite (load_after_save _ _ _ _ _ _ _ _ _ Hsave Hts).
    rewrite (fresh_exact m e ts Hb He Hts0 Hle). reflexivity.
  - intros fs fs' t1 t2 tid group round_ rows ts Hsave Hts Hfresh.
    rewrite (load_after_save _ _ _ _ _ _ _ _ _ Hsave Hts), Hfresh. reflexivity.
  - intros fs t tid group round_ rows Hclock.
    assert (exists ts, F64.to_int t = Ok ts) as [ts Hts].
    { destruct Hclock as [Hfin _]. destruct t; try discriminate Hfin; eexists; reflexivity. }
    eexists. split.
    + unfold save_cache. rewrite Hts. reflexivity.
    + erewrite load_after_save; [| unfold save_cache; rewrite Hts; reflexivity | exact Hts].
      rewrite (fresh_immediate t ts Hclock Hts). reflexivity.
  - intros fs now tid group round_ txt d Hfile Hjson Hstale.
    rewrite (load_stored _ _ _ _ _ _ _ Hfile Hjson), Hstale. reflexivity.
  - intros fs now tid group round_ Hfile. unfold load_cache. rewrite Hfile. reflexivity.
  - intros fs now tid group round_ txt e Hfile Hjson.
    unfold load_cache, load_entry. rewrite Hfile. cbn [read_text mbind result_bind].
    rewrite Hjson. reflexivity.
  - intros fs now tid group round_ txt v Hfile Hjson Hshape.
    unfold load_cache, load_entry. rewrite Hfile. cbn [read_text mbind result_bind].
    rewrite Hjson. cbn [mbind result_bind].
    destruct v; try reflexivity. exfalso. exact (Hshape _ eq_refl).
  - intros now ts Hts. destruct ts; (contradiction || reflexivity).
  - intros fs now tid group round_ Hfile. unfold load_cache. rewrite Hfile. reflexivity.
Qed.

End CacheFacts.

(** An instance of C2, for a codec that stores the value itself: saved at
    1748736000.5, the rows are returned 21600 seconds after the stored
    timestamp, and no longer half a second later. *)
Lemma C2_cache_roundtrip_witness :
  load_cache Ok demo_cache t_at_ttl "2257" "A" "3" = PList demo_rows /\
  load_cache Ok demo_cache t_past_ttl "2257" "A" "3" = PNone.
Proof.
  destruct (C2_cache_roundtrip (fun v => v) Ok (fun v => eq_refl))
    as (_ & _ & Hhit & _ & Hstale & _).
  split.
  - apply (Hhit ∅ demo_cache t_save t_at_ttl "2257" "A" "3" demo_rows 1748736000).
    + reflexivity.
    + vm_compute. reflexivity.
    + vm_compute. reflexivity.
  - apply (Hstale demo_cache t_past_ttl "2257" "A" "3"
             (PDict [("_ts", PInt 1748736000); ("data", PList demo_rows)])
             [("_ts", PInt 1748736000); ("data", PList demo_rows)]).
    + apply lookup_insert_eq.
    + reflexivity.
    + vm_compute. reflexivity.
Defined.

